(** * relativity-viz: the numerical core of [RelativityVisualizer.js]

    A shallow embedding of the physics functions of the React component
    [RelativityVisualizer] (src/components/RelativityVisualizer.js, and its
    smaller twin with the same [calculateLightPaths],
    [calculateRelativisticEffects] and [generateFacts]).

    The JavaScript code computes on Numbers.  The functions are written once,
    over an interface [Number] of the operations the code uses, and read at
    two instances:
    - [R] (module [Ideal]): exact real arithmetic, for the algebraic laws of
      the formulas;
    - [float] (module [F64]): IEEE-754 binary64, the Numbers JavaScript
      really has, with NaN, infinities and rounding, for what the code
      returns on concrete inputs.

    Values the component keeps in React state and that the functions read
    from their closure ([mass], [observer1Position], [particleSpeed], ...)
    are passed as the record [Controls]. *)

From Stdlib Require Import ZArith List String Ascii Bool Lia.
From Stdlib Require Import Floats.
From Stdlib Require Import Reals Lra.
Import ListNotations.

Set Implicit Arguments.

(** ** Numbers *)

(** The operations of JavaScript Numbers that the core uses.  [nltb a b] is
    [a < b]; [a > b] is [nltb b a] (both are false when an operand is NaN). *)
Class Number (N : Type) : Type := {
  fromZ : Z -> N;
  nadd : N -> N -> N;
  nsub : N -> N -> N;
  nmul : N -> N -> N;
  ndiv : N -> N -> N;
  nneg : N -> N;
  nltb : N -> N -> bool;
  Math_sqrt : N -> N;
  Math_abs : N -> N;
  Math_max : N -> N -> N;
  Math_exp : N -> N;
  Math_cos : N -> N;
  Math_sin : N -> N;
  Math_pow : N -> N -> N;
  Math_PI : N
}.

Declare Scope num_scope.
Delimit Scope num_scope with num.
Notation "a + b" := (nadd a b) : num_scope.
Notation "a - b" := (nsub a b) : num_scope.
Notation "a * b" := (nmul a b) : num_scope.
Notation "a / b" := (ndiv a b) : num_scope.
Notation "- a" := (nneg a) : num_scope.
Notation "a <? b" := (nltb a b) : num_scope.
Notation "a >? b" := (nltb b a) : num_scope.
Notation "# z" := (fromZ z%Z) (at level 1, format "# z") : num_scope.

(** A decimal literal [m / 10^k] of the source, such as [0.1 = dec 1 1] and
    [2.5 = dec 25 1].  On binary64 the quotient of two exactly represented
    integers is rounded to nearest, which is the value the JavaScript
    literal denotes. *)
Definition dec {N} `{Number N} (m : Z) (k : nat) : N :=
  (#m / #(10 ^ Z.of_nat k))%num.

(** *** Exact reals *)

Module Ideal.

Definition Rltb (a b : R) : bool := if Rlt_dec a b then true else false.

#[export] Instance R_Number : Number R := {|
  fromZ := IZR;
  nadd := Rplus;
  nsub := Rminus;
  nmul := Rmult;
  ndiv := Rdiv;
  nneg := Ropp;
  nltb := Rltb;
  Math_sqrt := R_sqrt.sqrt;
  Math_abs := Rabs;
  Math_max := Rmax;
  Math_exp := exp;
  Math_cos := cos;
  Math_sin := sin;
  Math_pow := Rpower;
  Math_PI := PI
|}.

End Ideal.

(** *** binary64 *)

Module F64.

(** [Math.exp], [Math.cos], [Math.sin] and [Math.pow] are
    "implementation-approximated" in ECMAScript: the engine supplies them. *)
Class HostMath : Type := {
  host_exp : float -> float;
  host_cos : float -> float;
  host_sin : float -> float;
  host_pow : float -> float -> float
}.

(** Integers of the source (literals, slider values, loop counters); exact
    below [2^53]. *)
Definition float_of_Z (z : Z) : float :=
  match z with
  | Z0 => PrimFloat.zero
  | Zpos _ => PrimFloat.of_uint63 (Uint63.of_Z z)
  | Zneg p => PrimFloat.opp (PrimFloat.of_uint63 (Uint63.of_Z (Zpos p)))
  end.

(** [Math.max] on two arguments: NaN if either is NaN, and [+0] above [-0]. *)
Definition float_max (a b : float) : float :=
  if PrimFloat.is_nan a || PrimFloat.is_nan b then PrimFloat.nan
  else if PrimFloat.ltb a b then b
  else if PrimFloat.ltb b a then a
  else if PrimFloat.get_sign a then b else a.

(** [Math.PI], the binary64 number nearest to pi. *)
Definition float_PI : float := 0x1.921fb54442d18p+1%float.

#[export] Instance float_Number {h : HostMath} : Number float := {|
  fromZ := float_of_Z;
  nadd := PrimFloat.add;
  nsub := PrimFloat.sub;
  nmul := PrimFloat.mul;
  ndiv := PrimFloat.div;
  nneg := PrimFloat.opp;
  nltb := PrimFloat.ltb;
  Math_sqrt := PrimFloat.sqrt;
  Math_abs := PrimFloat.abs;
  Math_max := float_max;
  Math_exp := host_exp;
  Math_cos := host_cos;
  Math_sin := host_sin;
  Math_pow := host_pow;
  Math_PI := float_PI
|}.

End F64.

(** ** Component state read by the core *)

Record Controls (N : Type) : Type := {
  mass : N;
  observer1Position : N;
  observer2Position : N;
  observer2Angle : N;
  rotation : N;
  particleCount : nat;
  particleSpeed : N
}.

(** ** Metric/field model: [calculateRelativisticEffects] *)

Module Observer.
Record t (N : Type) : Type := {
  x : N;
  y : N;
  r : N;
  potential : N;
  timeDilation : N;
  escapeVelocity : N
}.
End Observer.

Module Effects.
Record t (N : Type) : Type := {
  observer1 : Observer.t N;
  observer2 : Observer.t N;
  relativeTimeDilation : N;
  lightTravelTime : N;
  redshift : N;
  spaceContraction1 : N;
  spaceContraction2 : N;
  distance : N
}.
End Effects.

Section Core.
Context {N : Type} `{Number N}.
Local Open Scope num_scope.

Definition SCALE_FACTOR : N := dec 1 1.

Definition calculateRelativisticEffects (st : Controls N) : Effects.t N :=
  let angleRad := observer2Angle st * Math_PI / #180 in
  let x2 := observer2Position st * Math_cos angleRad in
  let y2 := observer2Position st * Math_sin angleRad in
  let r1 := observer1Position st in
  let r2 := observer2Position st in
  let potential1 := mass st / r1 in
  let potential2 := mass st / r2 in
  let timeDilation1 := #1 / Math_sqrt (#1 - (#2 * potential1 * SCALE_FACTOR)) in
  let timeDilation2 := #1 / Math_sqrt (#1 - (#2 * potential2 * SCALE_FACTOR)) in
  let relativeTimeDilation := timeDilation2 / timeDilation1 in
  let spaceContraction1 := Math_sqrt (#1 - (#2 * potential1 * SCALE_FACTOR)) in
  let spaceContraction2 := Math_sqrt (#1 - (#2 * potential2 * SCALE_FACTOR)) in
  let distance :=
    Math_sqrt (r1 * r1 + r2 * r2 - #2 * r1 * r2 * Math_cos angleRad) in
  let lightTravelTime :=
    distance * (#1 + (potential1 + potential2) / #2 * SCALE_FACTOR) in
  let redshift :=
    Math_sqrt ((#1 - #2 * potential2 * SCALE_FACTOR)
               / (#1 - #2 * potential1 * SCALE_FACTOR)) - #1 in
  let escapeVelocity1 := Math_sqrt (#2 * potential1 * SCALE_FACTOR) in
  let escapeVelocity2 := Math_sqrt (#2 * potential2 * SCALE_FACTOR) in
  {| Effects.observer1 :=
       {| Observer.x := observer1Position st;
          Observer.y := #0;
          Observer.r := r1;
          Observer.potential := potential1;
          Observer.timeDilation := timeDilation1;
          Observer.escapeVelocity := escapeVelocity1 |};
     Effects.observer2 :=
       {| Observer.x := x2;
          Observer.y := y2;
          Observer.r := r2;
          Observer.potential := potential2;
          Observer.timeDilation := timeDilation2;
          Observer.escapeVelocity := escapeVelocity2 |};
     Effects.relativeTimeDilation := relativeTimeDilation;
     Effects.lightTravelTime := lightTravelTime;
     Effects.redshift := redshift;
     Effects.spaceContraction1 := spaceContraction1;
     Effects.spaceContraction2 := spaceContraction2;
     Effects.distance := distance |}.

(** The formulas of lines 174-175, 192 and 196-197 as functions of the
    potentials and of the scale factor; [calculateRelativisticEffects]
    computes them at [mass / r] and [SCALE_FACTOR]
    (lemma [calculateRelativisticEffects_formulas]). *)
Definition timeDilationOf (potential scaleFactor : N) : N :=
  #1 / Math_sqrt (#1 - (#2 * potential * scaleFactor)).

Definition redshiftOf (potential1 potential2 scaleFactor : N) : N :=
  Math_sqrt ((#1 - #2 * potential2 * scaleFactor)
             / (#1 - #2 * potential1 * scaleFactor)) - #1.

Definition escapeVelocityOf (potential scaleFactor : N) : N :=
  Math_sqrt (#2 * potential * scaleFactor).

End Core.

(** ** Geodesic tracer: [calculateLightPaths] *)

Module GridPoint.
Record t (N : Type) : Type := { x : N; y : N; z : N }.
End GridPoint.

Section Tracer.
Context {N : Type} `{Number N}.
Local Open Scope num_scope.

(** The inner loop [for (let j = 0; j < steps; j++)] of lines 111-143, with
    [steps] iterations left; the samples it pushes, in order.  [break] ends
    the path.  ([theta], line 127, is computed and never read.) *)
Fixpoint traceSteps (mass rotation : N) (steps : nat) (x y vx vy : N)
  : list (GridPoint.t N) :=
  match steps with
  | O => []
  | S steps' =>
    let x := x + vx in
    let y := y + vy in
    let r := Math_sqrt (x * x + y * y) in
    if r <? dec 25 1 then []
    else
      let forceFactor := mass / (r * r * r) in
      let vx := vx - x * forceFactor in
      let vy := vy - y * forceFactor in
      let v :=
        if rotation >? #0 then
          let rotFactor := rotation * mass / (r * r * r) * dec 2 1 in
          (vx + (- y) * rotFactor, vy + x * rotFactor)
        else (vx, vy) in
      let vx := fst v in
      let vy := snd v in
      let vMag := Math_sqrt (vx * vx + vy * vy) in
      let vx' := vx / vMag * dec 5 1 in
      let vy' := vy / vMag * dec 5 1 in
      let z := (- mass) / r in
      {| GridPoint.x := x; GridPoint.y := y; GridPoint.z := z |}
        :: traceSteps mass rotation steps' x y vx' vy'
  end.

(** The body of the outer loop for ray [i]: the start point, then the
    traced samples. *)
Definition lightPath (sourceDistance mass rotation : N) (numPaths i : nat)
  : list (GridPoint.t N) :=
  let angle := (#(Z.of_nat i) * #2 * Math_PI) / #(Z.of_nat numPaths) in
  let x0 := sourceDistance * Math_cos angle in
  let y0 := sourceDistance * Math_sin angle in
  let r0 := Math_sqrt (x0 * x0 + y0 * y0) in
  let z0 := (- mass) / r0 in
  let steps := 100%nat in
  let vx := (- Math_cos angle) * dec 5 1 in
  let vy := (- Math_sin angle) * dec 5 1 in
  {| GridPoint.x := x0; GridPoint.y := y0; GridPoint.z := z0 |}
    :: traceSteps mass rotation steps x0 y0 vx vy.

(** [calculateLightPaths(mass, rotation, numPaths = 8)]; [sourceDistance]
    is [observer1Position], read from the component state. *)
Definition calculateLightPaths (st : Controls N) (mass rotation : N)
  (numPaths : nat) : list (list (GridPoint.t N)) :=
  let sourceDistance := observer1Position st in
  map (lightPath sourceDistance mass rotation numPaths) (seq 0 numPaths).

End Tracer.

(** ** Particle integrator: [initParticles], [updateParticles] *)

Module Point.
Record t (N : Type) : Type := { x : N; y : N }.
End Point.

Module Particle.
Record t (N : Type) : Type := {
  x : N;
  y : N;
  vx : N;
  vy : N;
  trail : list (Point.t N);
  color : string;
  size : N
}.
End Particle.

(** Code that calls [Math.random()]: the state is the number of calls made
    so far, and the [k]-th call returns [Math_random k]. *)
Definition Rand (A : Type) : Type := nat -> A * nat.

Definition ret {A} (a : A) : Rand A := fun k => (a, k).

Definition bind {A B} (m : Rand A) (f : A -> Rand B) : Rand B :=
  fun k => let (a, k') := m k in f a k'.

Notation "x <- m ;; f" := (bind m (fun x => f))
  (at level 61, m at next level, right associativity).

(** [array.map(callback)] for a callback with effects: elements in index
    order. *)
Fixpoint mapM {A B} (f : A -> Rand B) (l : list A) : Rand (list B) :=
  match l with
  | [] => ret []
  | a :: l' => b <- f a ;; bs <- mapM f l' ;; ret (b :: bs)
  end.

Section Particles.
Context {N : Type} `{Number N}.
Variable Math_random : nat -> N.
Variable interpolateRainbow : N -> string.
Local Open Scope num_scope.

Definition random : Rand N := fun k => (Math_random k, S k).

(** One iteration of the loop of [initParticles], for index [i]. *)
Definition initParticle (st : Controls N) (i : nat) : Rand (Particle.t N) :=
  u1 <- random ;;
  let angle := u1 * #2 * Math_PI in
  u2 <- random ;;
  let distance := #10 + u2 * #40 in
  let x := distance * Math_cos angle in
  let y := distance * Math_sin angle in
  u3 <- random ;;
  let speed := particleSpeed st * (dec 8 1 + dec 4 1 * u3) in
  let vx := (- y) * speed / Math_sqrt (x * x + y * y) in
  let vy := x * speed / Math_sqrt (x * x + y * y) in
  u4 <- random ;;
  ret {| Particle.x := x; Particle.y := y;
         Particle.vx := vx; Particle.vy := vy;
         Particle.trail := [];
         Particle.color :=
           interpolateRainbow
             (#(Z.of_nat i) / #(Z.of_nat (particleCount st)));
         Particle.size := #1 + u4 * #2 |}.

Definition initParticles (st : Controls N) : Rand (list (Particle.t N)) :=
  mapM (initParticle st) (seq 0 (particleCount st)).

(** The callback of [particles.map] in [updateParticles]. *)
Definition updateParticle (st : Controls N) (dt centralMass rotation : N)
  (particle : Particle.t N) : Rand (Particle.t N) :=
  let x := Particle.x particle in
  let y := Particle.y particle in
  let vx := Particle.vx particle in
  let vy := Particle.vy particle in
  let trail := Particle.trail particle in
  let color := Particle.color particle in
  let size := Particle.size particle in
  let r := Math_sqrt (x * x + y * y) in
  let eventHorizon := #2 * centralMass * SCALE_FACTOR in
  if r <? eventHorizon then
    u1 <- random ;;
    let angle := u1 * #2 * Math_PI in
    u2 <- random ;;
    let distance := #10 + u2 * #40 in
    let newX := distance * Math_cos angle in
    let newY := distance * Math_sin angle in
    u3 <- random ;;
    let speed := particleSpeed st * (dec 8 1 + dec 4 1 * u3) in
    let newVx := (- newY) * speed / Math_sqrt (newX * newX + newY * newY) in
    let newVy := newX * speed / Math_sqrt (newX * newX + newY * newY) in
    ret {| Particle.x := newX; Particle.y := newY;
           Particle.vx := newVx; Particle.vy := newVy;
           Particle.trail := [];
           Particle.color := color;
           Particle.size := size |}
  else
    let forceMagnitude := centralMass / (r * r) in
    let forceX := (- x) * forceMagnitude / r in
    let forceY := (- y) * forceMagnitude / r in
    let frame :=
      if rotation >? #0 then
        let rotationEffect :=
          rotation * centralMass / (r * r * r) * dec 2 1 in
        ((- y) * rotationEffect, x * rotationEffect)
      else (#0, #0) in
    let frameX := fst frame in
    let frameY := snd frame in
    let newVx := vx + (forceX + frameX) * dt in
    let newVy := vy + (forceY + frameY) * dt in
    let newX := x + newVx * dt in
    let newY := y + newVy * dt in
    let newTrail := trail ++ [ {| Point.x := x; Point.y := y |} ] in
    let newTrail :=
      if (20 <? List.length newTrail)%nat then tl newTrail else newTrail in
    ret {| Particle.x := newX; Particle.y := newY;
           Particle.vx := newVx; Particle.vy := newVy;
           Particle.trail := newTrail;
           Particle.color := color;
           Particle.size := size |}.

Definition updateParticles (st : Controls N)
  (particles : list (Particle.t N)) (dt centralMass rotation : N)
  : Rand (list (Particle.t N)) :=
  mapM (updateParticle st dt centralMass rotation) particles.

(** [n] frames of the running simulation:
    [particlesRef.current = updateParticles(particlesRef.current, dt, mass, rotation)]. *)
Fixpoint runFrames (st : Controls N) (dt centralMass rotation : N) (n : nat)
  (particles : list (Particle.t N)) : Rand (list (Particle.t N)) :=
  match n with
  | O => ret particles
  | S n' =>
    particles' <- updateParticles st particles dt centralMass rotation ;;
    runFrames st dt centralMass rotation n' particles'
  end.

End Particles.

(** ** Wave/orbit integrator: [updateWaves] and the merger of
    [renderExtremeObjects] *)

Module WavePoint.
(** [displacement], [sourceX] and [sourceY] are absent from the points
    [generateWavePoints] builds and present once [updateWaves] has run. *)
Record t (N : Type) : Type := {
  x : N;
  y : N;
  source : Z;
  radius : N;
  angle : N;
  phase : N;
  displacement : option N;
  sourceX : option N;
  sourceY : option N
}.
End WavePoint.

Module Merger.
(** The orbital quantities of [case 'merger'] (lines 1356-1379). *)
Record t (N : Type) : Type := {
  separation : N;
  orbitFrequency : N;
  orbitAngle : N;
  bh1x : N;
  bh1y : N;
  bh2x : N;
  bh2y : N
}.
End Merger.

Module Kerr.
(** The radii of [case 'kerr'] (lines 1232-1244). *)
Record t (N : Type) : Type := {
  rPlus : N;
  rMinus : N;
  horizonRadius : N;
  ergoRadius : N
}.
End Kerr.

Section Waves.
Context {N : Type} `{Number N}.
Local Open Scope num_scope.

(** Lines 623-629 of [updateWaves]: the orbit of the two sources at [time],
    as the pair [(distance, orbitAngle)]. *)
Definition waveOrbit (time : N) : N * N :=
  let orbitFreq := dec 5 2 in
  let orbitAngle := time * orbitFreq in
  let initialDistance := #10 in
  let decayRate := dec 3 2 in
  let distance :=
    Math_max #2 (initialDistance * Math_exp ((- time) * decayRate)) in
  (distance, orbitAngle).

Definition updateWaves (points : list (WavePoint.t N))
  (time amplitude frequency : N) : list (WavePoint.t N) :=
  let distance := fst (waveOrbit time) in
  let orbitAngle := snd (waveOrbit time) in
  let source1 :=
    {| Point.x := (- distance) * Math_cos orbitAngle;
       Point.y := (- distance) * Math_sin orbitAngle |} in
  let source2 :=
    {| Point.x := distance * Math_cos orbitAngle;
       Point.y := distance * Math_sin orbitAngle |} in
  map (fun point =>
         let source :=
           if (WavePoint.source point =? 1)%Z then source1 else source2 in
         let newAngle := WavePoint.angle point + time * dec 1 1 in
         let x := Point.x source + WavePoint.radius point * Math_cos newAngle in
         let y := Point.y source + WavePoint.radius point * Math_sin newAngle in
         let waveDisplacement :=
           Math_sin (time * frequency + WavePoint.phase point) * amplitude in
         {| WavePoint.x := x;
            WavePoint.y := y;
            WavePoint.source := WavePoint.source point;
            WavePoint.radius := WavePoint.radius point;
            WavePoint.angle := newAngle;
            WavePoint.phase := WavePoint.phase point;
            WavePoint.displacement := Some waveDisplacement;
            WavePoint.sourceX := Some (Point.x source);
            WavePoint.sourceY := Some (Point.y source) |})
      points.

(** [case 'merger']: the state of the binary at [frameTime]. *)
Definition mergerOrbit (mass frameTime : N) : Merger.t N :=
  let time := frameTime in
  let initialSeparation := #40 in
  let decayRate := dec 3 2 in
  let separation :=
    Math_max #5 (initialSeparation * Math_exp ((- time) * decayRate)) in
  let orbitFrequency :=
    dec 5 2 * Math_pow (separation / initialSeparation) (- dec 15 1) in
  let orbitAngle := time * orbitFrequency in
  let mass1 := mass * dec 6 1 in
  let mass2 := mass * dec 4 1 in
  let centerX := #0 in
  let centerY := #0 in
  {| Merger.separation := separation;
     Merger.orbitFrequency := orbitFrequency;
     Merger.orbitAngle := orbitAngle;
     Merger.bh1x :=
       centerX - separation * (mass2 / (mass1 + mass2)) * Math_cos orbitAngle;
     Merger.bh1y :=
       centerY - separation * (mass2 / (mass1 + mass2)) * Math_sin orbitAngle;
     Merger.bh2x :=
       centerX + separation * (mass1 / (mass1 + mass2)) * Math_cos orbitAngle;
     Merger.bh2y :=
       centerY + separation * (mass1 / (mass1 + mass2)) * Math_sin orbitAngle |}.

(** [case 'kerr']: [kerrMass = mass], [kerrSpin = rotation],
    [kerrScale = SCALE_FACTOR]. *)
Definition kerrHorizon (mass rotation : N) : Kerr.t N :=
  let kerrMass := mass in
  let kerrSpin := rotation in
  let rPlus := kerrMass + Math_sqrt (kerrMass * kerrMass - kerrSpin * kerrSpin) in
  let rMinus := kerrMass - Math_sqrt (kerrMass * kerrMass - kerrSpin * kerrSpin) in
  let kerrScale := SCALE_FACTOR in
  let horizonRadius := rPlus * kerrScale in
  let ergoRadius := #2 * kerrMass * kerrScale in
  {| Kerr.rPlus := rPlus;
     Kerr.rMinus := rMinus;
     Kerr.horizonRadius := horizonRadius;
     Kerr.ergoRadius := ergoRadius |}.

End Waves.

(** ** Fact generator: [generateFacts] *)

(** What the fact generator needs from Numbers besides arithmetic:
    [x.toFixed(d)], the conversions between Numbers and strings of template
    literals and of [Math.abs] applied to a string, [Math.floor], the
    operator [%] and strict equality [===]. *)
Class NumberText (N : Type) : Type := {
  toFixed : N -> nat -> string;
  ToString : N -> string;
  ToNumber : string -> N;
  Math_floor : N -> N;
  nrem : N -> N -> N;
  strictEq : N -> N -> bool
}.

Module Facts.
Record t : Type := {
  timeDilationFact : string;
  clockFact : string;
  lightFact : string;
  redshiftFact : string;
  escapeVelocityFact1 : string;
  escapeVelocityFact2 : string;
  properDistanceFact : string;
  horizonFact : string;
  einsteinRingFact : string
}.
End Facts.

(** [String.prototype.trim] on the strings the generator builds. *)
Definition isWhiteSpace (c : ascii) : bool :=
  let n := nat_of_ascii c in
  ((9 <=? n) && (n <=? 13) || (n =? 32))%nat.

Fixpoint trimStart (s : string) : string :=
  match s with
  | EmptyString => EmptyString
  | String c s' => if isWhiteSpace c then trimStart s' else s
  end.

Fixpoint trimEnd (s : string) : string :=
  match s with
  | EmptyString => EmptyString
  | String c s' =>
    match trimEnd s' with
    | EmptyString => if isWhiteSpace c then EmptyString else String c EmptyString
    | t => String c t
    end
  end.

Definition trim (s : string) : string := trimStart (trimEnd s).

Section FactGenerator.
Context {N : Type} `{Number N} `{NumberText N}.
Local Open Scope string_scope.
Local Open Scope num_scope.

(** [`${n} unit${n !== 1 ? "s" : ""}`] *)
Definition plural (n : N) (unit : string) : string :=
  ToString n ++ " " ++ unit ++ (if strictEq n #1 then EmptyString else "s").

Definition formatTimeDifference (seconds : N) : string :=
  if seconds <? #60 then toFixed seconds 2 ++ " seconds"
  else
    let years := Math_floor (seconds / #31536000) in
    let remainingAfterYears := nrem seconds #31536000 in
    let months := Math_floor (remainingAfterYears / #2592000) in
    let remainingAfterMonths := nrem remainingAfterYears #2592000 in
    let days := Math_floor (remainingAfterMonths / #86400) in
    let remainingAfterDays := nrem remainingAfterMonths #86400 in
    let hours := Math_floor (remainingAfterDays / #3600) in
    let remainingAfterHours := nrem remainingAfterDays #3600 in
    let minutes := Math_floor (remainingAfterHours / #60) in
    let remainingSeconds := Math_floor (nrem remainingAfterHours #60) in
    let result := EmptyString in
    let result :=
      if years >? #0 then result ++ plural years "year" ++ " " else result in
    let result :=
      if months >? #0 then result ++ plural months "month" ++ " " else result in
    let result :=
      if days >? #0 then result ++ plural days "day" ++ " " else result in
    let result :=
      if hours >? #0 then result ++ plural hours "hour" ++ " " else result in
    let result :=
      if minutes >? #0 then result ++ plural minutes "minute" ++ " "
      else result in
    let result :=
      if remainingSeconds >? #0 then result ++ plural remainingSeconds "second"
      else result in
    trim result.

(** [mass] is read from the component state. *)
Definition generateFacts (st : Controls N) (effects : Effects.t N) : Facts.t :=
  let observer1 := Effects.observer1 effects in
  let observer2 := Effects.observer2 effects in
  let relativeTimeDilation := Effects.relativeTimeDilation effects in
  let lightTravelTime := Effects.lightTravelTime effects in
  let redshift := Effects.redshift effects in
  let distance := Effects.distance effects in
  let timeDilationPercent := toFixed ((relativeTimeDilation - #1) * #100) 4 in
  let timeDilationFact :=
    if relativeTimeDilation >? #1 then
      "Observer 2 experiences time " ++ timeDilationPercent
      ++ "% slower than Observer 1 due to being deeper in the gravitational well."
    else
      "Observer 1 experiences time "
      ++ ToString (Math_abs (ToNumber timeDilationPercent))
      ++ "% slower than Observer 2 due to being deeper in the gravitational well." in
  let secondsDifference :=
    #31536000 * Math_abs (relativeTimeDilation - #1) in
  let timeDifferenceStr := formatTimeDifference secondsDifference in
  let clockFact :=
    "After 1 year, their clocks would differ by approximately "
    ++ timeDifferenceStr ++ "." in
  let lightFact :=
    "Light takes approximately " ++ toFixed lightTravelTime 2
    ++ " time units to travel between the observers." in
  let redshiftPercent := toFixed (redshift * #100) 4 in
  let redshiftFact :=
    if redshift >? #0 then
      "Light from Observer 2 appears redshifted by " ++ redshiftPercent
      ++ "% to Observer 1."
    else
      "Light from Observer 1 appears redshifted by "
      ++ ToString (Math_abs (ToNumber redshiftPercent))
      ++ "% to Observer 2." in
  let escapeVelocityFact1 :=
    "Observer 1's escape velocity is "
    ++ toFixed (Observer.escapeVelocity observer1 * #100) 2
    ++ "% of the speed of light." in
  let escapeVelocityFact2 :=
    "Observer 2's escape velocity is "
    ++ toFixed (Observer.escapeVelocity observer2 * #100) 2
    ++ "% of the speed of light." in
  let properDistance :=
    distance
    / (#1 + (Observer.potential observer1 + Observer.potential observer2)
            / #2 * SCALE_FACTOR) in
  let properDistanceFact :=
    "The proper distance between observers is " ++ toFixed properDistance 2
    ++ " units." in
  let schwarzschildRadius := #2 * mass st * SCALE_FACTOR in
  let horizonFact :=
    "At this mass, the event horizon would be at "
    ++ toFixed schwarzschildRadius 2 ++ " units from center." in
  let einsteinRingRadius := #4 * mass st * SCALE_FACTOR in
  let einsteinRingFact :=
    "Light from a distant source directly behind the mass would form an Einstein ring of radius "
    ++ toFixed einsteinRingRadius 2 ++ " units." in
  {| Facts.timeDilationFact := timeDilationFact;
     Facts.clockFact := clockFact;
     Facts.lightFact := lightFact;
     Facts.redshiftFact := redshiftFact;
     Facts.escapeVelocityFact1 := escapeVelocityFact1;
     Facts.escapeVelocityFact2 := escapeVelocityFact2;
     Facts.properDistanceFact := properDistanceFact;
     Facts.horizonFact := horizonFact;
     Facts.einsteinRingFact := einsteinRingFact |}.

End FactGenerator.

(** *** Numbers as text on binary64 *)

Module F64Text.

Local Open Scope string_scope.

(** The engine's part of the conversions: the decimal digits it prints for
    a positive finite Number (Number::toString picks the shortest digits
    that read back as the same Number) and its parser of numeric strings. *)
Class HostText : Type := {
  host_digits : float -> string;
  host_parse : string -> float
}.

Definition digitChar (d : Z) : ascii := ascii_of_nat (48 + Z.to_nat d).

(** The decimal digits of [n >= 0], most significant first, before [acc]. *)
Fixpoint digitsOf (fuel : nat) (n : Z) (acc : string) : string :=
  match fuel with
  | O => acc
  | S fuel' =>
    let acc' := String (digitChar (n mod 10)) acc in
    if (n <? 10)%Z then acc' else digitsOf fuel' (n / 10) acc'
  end.

Definition decimalOf (n : Z) : string :=
  digitsOf (S (Z.to_nat (Z.log2 n))) n EmptyString.

Fixpoint zeros (k : nat) : string :=
  match k with
  | O => EmptyString
  | S k' => String "0" (zeros k')
  end.

(** For finite [x >= 0], the integer [n] for which [n / 10^f - x] is as
    close to zero as possible, the larger one if there are two (step 11 of
    Number.prototype.toFixed), computed exactly from [x = m * 2^e]. *)
Definition scaledRound (x : float) (f : nat) : Z :=
  match Prim2SF x with
  | S754_finite _ m e =>
    let v := (Zpos m * 10 ^ Z.of_nat f)%Z in
    if (0 <=? e)%Z then (v * 2 ^ e)%Z
    else ((2 * v + 2 ^ (- e)) / 2 ^ (- e + 1))%Z
  | _ => 0%Z
  end.

(** The digits of [n] with a point before the last [f] of them. *)
Definition fixedDigits (n : Z) (f : nat) : string :=
  let m := decimalOf n in
  if (f =? 0)%nat then m
  else
    let k := String.length m in
    let m := if (k <=? f)%nat then zeros (f + 1 - k) ++ m else m in
    let k := String.length m in
    substring 0 (k - f) m ++ "." ++ substring (k - f) f m.

(** Number::toString. *)
Definition float_ToString {t : HostText} (x : float) : string :=
  if PrimFloat.is_nan x then "NaN"
  else if PrimFloat.is_zero x then "0"
  else if PrimFloat.ltb x 0 then
    "-" ++ (if PrimFloat.is_infinity x then "Infinity"
            else host_digits (PrimFloat.opp x))
  else if PrimFloat.is_infinity x then "Infinity"
  else host_digits x.

(** Number.prototype.toFixed, for [0 <= f <= 100]. *)
Definition float_toFixed {t : HostText} (x : float) (f : nat) : string :=
  if negb (PrimFloat.is_finite x) then float_ToString x
  else
    let negative := PrimFloat.ltb x 0 in
    let ax := if negative then PrimFloat.opp x else x in
    let m :=
      if PrimFloat.leb 1e21 ax then float_ToString ax
      else fixedDigits (scaledRound ax f) f in
    if negative then "-" ++ m else m.

(** [Math.floor]. *)
Definition float_floor (x : float) : float :=
  match Prim2SF x with
  | S754_finite s m e =>
    if (0 <=? e)%Z then x
    else
      let d := (2 ^ (- e))%Z in
      if s then F64.float_of_Z (- ((Zpos m + d - 1) / d))
      else F64.float_of_Z (Zpos m / d)
  | _ => x
  end.

(** The operator [%]: the exact remainder, with the sign of the dividend. *)
Definition float_rem (a b : float) : float :=
  match Prim2SF a, Prim2SF b with
  | S754_nan, _ | _, S754_nan => PrimFloat.nan
  | S754_infinity _, _ => PrimFloat.nan
  | _, S754_zero _ => PrimFloat.nan
  | _, S754_infinity _ => a
  | S754_zero _, _ => a
  | S754_finite sa ma ea, S754_finite _ mb eb =>
    let e := Z.min ea eb in
    let A := (Zpos ma * 2 ^ (ea - e))%Z in
    let B := (Zpos mb * 2 ^ (eb - e))%Z in
    let magnitude := Z.ldexp (F64.float_of_Z (A mod B)) e in
    if sa then PrimFloat.opp magnitude else magnitude
  end.

#[export] Instance float_Text {t : HostText} : NumberText float := {|
  toFixed := float_toFixed;
  ToString := float_ToString;
  ToNumber := host_parse;
  Math_floor := float_floor;
  nrem := float_rem;
  strictEq := PrimFloat.eqb
|}.

End F64Text.

(** ** The rest of the component's arithmetic *)

(** Two more operations on Numbers: [a <= b] (false when an operand is NaN)
    and [Math.atan2]. *)
Class NumberMore (N : Type) : Type := {
  nleb : N -> N -> bool;
  Math_atan2 : N -> N -> N
}.

Notation "a <=? b" := (nleb a b) : num_scope.

Module IdealMore.

Definition Rleb (a b : R) : bool := if Rle_dec a b then true else false.

(** The angle of the point [(x, y)], in (-pi, pi]. *)
Definition Ratan2 (y x : R) : R :=
  if Rlt_dec 0 x then atan (y / x)
  else if Rlt_dec x 0 then
    (if Rle_dec 0 y then atan (y / x) + PI else atan (y / x) - PI)%R
  else if Rlt_dec 0 y then (PI / 2)%R
  else if Rlt_dec y 0 then (- PI / 2)%R
  else 0%R.

#[export] Instance R_More : NumberMore R := {|
  nleb := Rleb;
  Math_atan2 := Ratan2
|}.

End IdealMore.

Module F64More.

(** [Math.atan2] is supplied by the engine, like the other transcendental
    functions. *)
Class HostAtan2 : Type := { host_atan2 : float -> float -> float }.

#[export] Instance float_More {a : HostAtan2} : NumberMore float := {|
  nleb := PrimFloat.leb;
  Math_atan2 := host_atan2
|}.

End F64More.

(** *** Spacetime grid: [calculateSpacetimeGrid], and the merger's label *)

Section Grid.
Context {N : Type} `{Number N} `{NumberMore N}.
Local Open Scope num_scope.

(** [for (let x = start; x <= limit; x += step) body(x)]: what the bodies
    push, in order.  [fuel] bounds the number of times the condition is
    tested; the result is [None] if the loop is still running then. *)
Fixpoint forUpTo {A : Type} (fuel : nat) (x limit step : N)
  (body : N -> option (list A)) : option (list A) :=
  match fuel with
  | O => None
  | S fuel' =>
    if x <=? limit then
      match body x with
      | Some pushed =>
        match forUpTo fuel' (x + step) limit step body with
        | Some rest => Some (pushed ++ rest)
        | None => None
        end
      | None => None
      end
    else Some []
  end.

(** The body of the inner loop (lines 68-82) at [(x, y)]: nothing after
    [continue], one point otherwise. *)
Definition gridCell (mass rotation x y : N) : list (GridPoint.t N) :=
  let r := Math_sqrt (x * x + y * y) in
  if r <? #2 then []
  else
    let z := (- mass) / r in
    let z :=
      if rotation >? #0 then
        let theta := Math_atan2 y x in
        z + rotation * mass * Math_sin theta / (r * r) * dec 5 1
      else z in
    [ {| GridPoint.x := x; GridPoint.y := y; GridPoint.z := z |} ].

(** Each of the two loops tests its condition 22 times. *)
Definition gridFuel : nat := 100.

Definition calculateSpacetimeGrid (mass rotation : N)
  : option (list (GridPoint.t N)) :=
  let size := #60 in
  let gridSize := #20 in
  let step := size / gridSize in
  forUpTo gridFuel ((- size) / #2) (size / #2) step (fun x =>
    forUpTo gridFuel ((- size) / #2) (size / #2) step (fun y =>
      Some (gridCell mass rotation x y))).

(** The label of [case 'merger'] (lines 1467-1470). *)
Definition mergerState (separation : N) : string :=
  let mergerState := "Early inspiral"%string in
  let mergerState :=
    if separation <? #15 then "Late inspiral"%string else mergerState in
  let mergerState :=
    if separation <? #10 then "Merger imminent"%string else mergerState in
  if separation <? #7 then "Merger"%string else mergerState.

(** The frame time the merger view asks for next (lines 1487-1491):
    [setFrameTime(0)] or [setFrameTime(prev => prev + 0.1)]. *)
Definition mergerNextFrameTime (separation frameTime : N)
  (simulationRunning : bool) : N :=
  if (separation <=? #5) && simulationRunning then #0
  else if simulationRunning then frameTime + dec 1 1
  else frameTime.

End Grid.

(** *** Wave sources: [generateWavePoints] *)

Section WaveSource.
Context {N : Type} `{Number N}.
Variable Math_random : nat -> N.
Local Open Scope num_scope.

(** The two points iteration [i] of the loop pushes. *)
Definition wavePair (i : nat) : Rand (list (WavePoint.t N)) :=
  let waveCount := #100 in
  let source1 := {| Point.x := #(-10); Point.y := #0 |} in
  let source2 := {| Point.x := #10; Point.y := #0 |} in
  let angle := #(Z.of_nat i) / waveCount * #2 * Math_PI in
  let radius := #5 + #(Z.of_nat i) * dec 5 1 in
  let x1 := Point.x source1 + radius * Math_cos angle in
  let y1 := Point.y source1 + radius * Math_sin angle in
  let x2 := Point.x source2 + radius * Math_cos angle in
  let y2 := Point.y source2 + radius * Math_sin angle in
  u1 <- random Math_random ;;
  u2 <- random Math_random ;;
  ret [ {| WavePoint.x := x1; WavePoint.y := y1; WavePoint.source := 1;
           WavePoint.radius := radius; WavePoint.angle := angle;
           WavePoint.phase := u1 * Math_PI * #2;
           WavePoint.displacement := None;
           WavePoint.sourceX := None; WavePoint.sourceY := None |};
        {| WavePoint.x := x2; WavePoint.y := y2; WavePoint.source := 2;
           WavePoint.radius := radius; WavePoint.angle := angle;
           WavePoint.phase := u2 * Math_PI * #2;
           WavePoint.displacement := None;
           WavePoint.sourceX := None; WavePoint.sourceY := None |} ].

Definition generateWavePoints : Rand (list (WavePoint.t N)) :=
  pairs <- mapM wavePair (seq 0 100) ;;
  ret (List.concat pairs).

End WaveSource.

(** *** The observer view and the geodesics of the singularity view *)

Module ObserverView.
(** The apparent position of the other observer in [renderObserverView]
    (lines 927-945). *)
Record t (N : Type) : Type := {
  distance : N;
  visualDistance : N;
  visualAngle : N;
  apparentX : N;
  apparentY : N
}.
End ObserverView.

Section Views.
Context {N : Type} `{Number N} `{NumberMore N}.
Local Open Scope num_scope.

(** Lines 821-826 and 927-945 of [renderObserverView]; [activeObserver] is
    the component's state, 1 or 2. *)
Definition observerView (st : Controls N) (activeObserver : Z)
  : ObserverView.t N :=
  let observer1 := {| Point.x := observer1Position st; Point.y := #0 |} in
  let observer2 :=
    {| Point.x :=
         observer2Position st * Math_cos (observer2Angle st * Math_PI / #180);
       Point.y :=
         observer2Position st * Math_sin (observer2Angle st * Math_PI / #180)
    |} in
  let observer := if (activeObserver =? 1)%Z then observer1 else observer2 in
  let otherObserver :=
    if (activeObserver =? 1)%Z then observer2 else observer1 in
  let relX := Point.x otherObserver - Point.x observer in
  let relY := Point.y otherObserver - Point.y observer in
  let distance := Math_sqrt (relX * relX + relY * relY) in
  let angle := Math_atan2 relY relX in
  let visualDistance := distance * (#1 - mass st / (distance * #10)) in
  let visualAngle :=
    angle + (mass st / (distance * #15)) * Math_sin (angle * #2) in
  let apparentX := visualDistance * Math_cos visualAngle in
  let apparentY := visualDistance * Math_sin visualAngle in
  {| ObserverView.distance := distance;
     ObserverView.visualDistance := visualDistance;
     ObserverView.visualAngle := visualAngle;
     ObserverView.apparentX := apparentX;
     ObserverView.apparentY := apparentY |}.

(** The loops over [t] of [renderSingularityDebateView] test their
    condition at most 22 times. *)
Definition geodesicFuel : nat := 100.

(** Geodesic [i] of the mode 'penrose' (lines 1603-1615):
    [for (let t = 0; t <= 1; t += 0.1)]. *)
Definition penroseGeodesic (centerX centerY maxRadius : N) (i : nat)
  : option (list (Point.t N)) :=
  let angle := #(Z.of_nat i) / #8 * #2 * Math_PI in
  let startX := centerX + Math_cos angle * maxRadius * dec 7 1 in
  let startY := centerY + Math_sin angle * maxRadius * dec 7 1 in
  forUpTo geodesicFuel #0 #1 (dec 1 1) (fun t =>
    let pathX := centerX + (startX - centerX) * (#1 - t) * (#1 - t) in
    let pathY := centerY + (startY - centerY) * (#1 - t) * (#1 - t) in
    Some [ {| Point.x := pathX; Point.y := pathY |} ]).

(** Geodesic [i] of the mode 'kerr' (lines 1710-1726):
    [for (let t = 0; t <= 1; t += 0.05)].  ([startX] and [startY] are
    computed and not read.) *)
Definition kerrGeodesic (centerX centerY maxRadius : N) (i : nat)
  : option (list (Point.t N)) :=
  let angle := #(Z.of_nat i) / #8 * #2 * Math_PI in
  forUpTo geodesicFuel #0 #1 (dec 5 2) (fun t =>
    let pathAngle := angle + t * Math_PI * #2 in
    let radiusFactor := dec 7 1 - dec 4 1 * t + dec 4 1 * t * t in
    let pathX := centerX + Math_cos pathAngle * maxRadius * radiusFactor in
    let pathY := centerY + Math_sin pathAngle * maxRadius * radiusFactor in
    Some [ {| Point.x := pathX; Point.y := pathY |} ]).

End Views.

(** * Vocabulary of the statements *)

(** ** Particles *)

Section ParticleVocabulary.
Context {N : Type}.

Definition trailBounded (p : Particle.t N) : Prop :=
  (List.length (Particle.trail p) <= 20)%nat.

Definition sameLook (p p' : Particle.t N) : Prop :=
  Particle.color p' = Particle.color p /\ Particle.size p' = Particle.size p.

End ParticleVocabulary.

(** A point particle at rest at (30, 0), over the reals. *)
Definition restingParticle : Particle.t R :=
  {| Particle.x := 30%R; Particle.y := 0%R;
     Particle.vx := 0%R; Particle.vy := 0%R;
     Particle.trail := [];
     Particle.color := "red"%string;
     Particle.size := 1%R |}.

Definition defaultControlsR : Controls R :=
  {| mass := 10%R;
     observer1Position := 30%R;
     observer2Position := 20%R;
     observer2Angle := 120%R;
     rotation := 0%R;
     particleCount := 50;
     particleSpeed := (3 / 10)%R |}.

(** The configuration with the two observers exchanged. *)
Definition swapObservers (st : Controls R) : Controls R :=
  {| mass := mass st;
     observer1Position := observer2Position st;
     observer2Position := observer1Position st;
     observer2Angle := observer2Angle st;
     rotation := rotation st;
     particleCount := particleCount st;
     particleSpeed := particleSpeed st |}.

(** ** Light rays *)

Section TracerVocabulary.
Context {N : Type} `{Number N}.

(** The radius the tracer tests against 2.5, recomputed from a sample. *)
Definition sampleRadius (p : GridPoint.t N) : N :=
  Math_sqrt (nadd (nmul (GridPoint.x p) (GridPoint.x p))
                  (nmul (GridPoint.y p) (GridPoint.y p))).

(** Ray [i] from the values [c] and [s] of the cosine and the sine of its
    angle. *)
Definition rayFrom (sourceDistance mass rotation c s : N)
  : list (GridPoint.t N) :=
  let x0 := nmul sourceDistance c in
  let y0 := nmul sourceDistance s in
  {| GridPoint.x := x0;
     GridPoint.y := y0;
     GridPoint.z :=
       ndiv (nneg mass) (Math_sqrt (nadd (nmul x0 x0) (nmul y0 y0))) |}
    :: traceSteps mass rotation 100 x0 y0
         (nmul (nneg c) (dec 5 1)) (nmul (nneg s) (dec 5 1)).

End TracerVocabulary.

(** ** Settings and checks on binary64 *)

Module Cases64.
Import F64 F64Text.
Local Open Scope string_scope.

Set Warnings "-inexact-float".

(** The integers [lo], ..., [hi]. *)
Definition Zrange (lo hi : Z) : list Z :=
  map (fun i => (lo + Z.of_nat i)%Z) (seq 0 (Z.to_nat (hi - lo + 1))).

(** The state after the sliders "Mass" (1 to 50), "Observer 1 Distance"
    (10 to 50), "Observer 2 Distance" (5 to 45) and "Observer 2 Angle"
    (0 to 360) are set to integers; the other values are the initial ones. *)
Definition sliders (m r1 r2 a : Z) : Controls float :=
  {| mass := float_of_Z m;
     observer1Position := float_of_Z r1;
     observer2Position := float_of_Z r2;
     observer2Angle := float_of_Z a;
     rotation := 0%float;
     particleCount := 50;
     particleSpeed := 0.3%float |}.

(** The initial state of the component. *)
Definition initialControls : Controls float := sliders 10 30 20 120.

(** Mass at its maximum and the second observer at its minimum distance. *)
Definition deepControls : Controls float := sliders 50 30 5 120.

(** [x], rounded to [k] decimals, is [n / 10^k] (for [x >= 0]). *)
Definition roundsTo (x : float) (k : nat) (n : Z) : Prop :=
  scaledRound x k = n.

(** The time dilation of mass [m] at radius [r] is a finite number, at
    least 1, whenever [2 * potential * SCALE_FACTOR < 1]. *)
Definition timeDilationChecked {h : HostMath} (m r : Z) : bool :=
  let potential := PrimFloat.div (float_of_Z m) (float_of_Z r) in
  let t := timeDilationOf potential SCALE_FACTOR in
  implb (PrimFloat.ltb (PrimFloat.mul (PrimFloat.mul 2 potential) SCALE_FACTOR) 1)
        (PrimFloat.is_finite t && PrimFloat.leb 1 t).

Definition redshiftProduct {h : HostMath} (m r1 r2 : Z) : float :=
  let p1 := PrimFloat.div (float_of_Z m) (float_of_Z r1) in
  let p2 := PrimFloat.div (float_of_Z m) (float_of_Z r2) in
  PrimFloat.mul (PrimFloat.add 1 (redshiftOf p1 p2 SCALE_FACTOR))
                (PrimFloat.add 1 (redshiftOf p2 p1 SCALE_FACTOR)).

Definition sliderInDomain (m r : Z) : bool :=
  PrimFloat.ltb
    (PrimFloat.mul (PrimFloat.mul 2 (PrimFloat.div (float_of_Z m) (float_of_Z r)))
                   0.1) 1.

Definition redshiftProductChecked {h : HostMath} (m r1 r2 : Z) : bool :=
  implb (sliderInDomain m r1 && sliderInDomain m r2)
        (PrimFloat.leb 0x1.ffffffffffffcp-1 (redshiftProduct m r1 r2)
         && PrimFloat.leb (redshiftProduct m r1 r2) 0x1.0000000000004p+0).

(** The values the specification gives for the example. *)
Definition specExample (h : HostMath) : Prop :=
  let e := calculateRelativisticEffects initialControls in
  roundsTo (Observer.potential (Effects.observer1 e)) 3 333
  /\ Observer.potential (Effects.observer2 e) = 0.5%float
  /\ roundsTo (Observer.timeDilation (Effects.observer1 e)) 4 10339
  /\ roundsTo (Observer.timeDilation (Effects.observer2 e)) 4 10541
  /\ roundsTo (Effects.relativeTimeDilation e) 4 10195
  /\ PrimFloat.ltb 1 (Effects.relativeTimeDilation e) = true.

(** The angle of ray [i] of eight, as [lightPath] computes it. *)
Definition rayAngle (i : nat) : float :=
  PrimFloat.div
    (PrimFloat.mul (PrimFloat.mul (float_of_Z (Z.of_nat i)) 2) float_PI) 8.

(** The binary64 numbers nearest to the cosine and the sine of the eight
    ray angles. *)
Definition trigTable : list (float * float) :=
  [ (0x1p+0, 0x0p+0);
    (0x1.6a09e667f3bcdp-1, 0x1.6a09e667f3bccp-1);
    (0x1.1a62633145c07p-54, 0x1p+0);
    (-0x1.6a09e667f3bccp-1, 0x1.6a09e667f3bcdp-1);
    (-0x1p+0, 0x1.1a62633145c07p-53);
    (-0x1.6a09e667f3bcep-1, -0x1.6a09e667f3bccp-1);
    (-0x1.a79394c9e8a0ap-53, -0x1p+0);
    (0x1.6a09e667f3bcbp-1, -0x1.6a09e667f3bcep-1) ]%float.

(** [v] and its two neighbours among the binary64 numbers. *)
Definition oneUlp (v : float) : list float :=
  [PrimFloat.next_down v; v; PrimFloat.next_up v].

(** The engine's [Math.cos] and [Math.sin] are within one unit in the last
    place of the nearest binary64 number at the eight ray angles. *)
Definition accurateTrig (h : HostMath) : Prop :=
  forall i : nat, (i < 8)%nat ->
    In (host_cos (rayAngle i)) (oneUlp (fst (nth i trigTable (1, 0)%float)))
    /\ In (host_sin (rayAngle i)) (oneUlp (snd (nth i trigTable (1, 0)%float))).

(** The values of the slider "Rotation Effect": 0, 0.1, ..., 1. *)
Definition rotationSlider : list float :=
  map (fun k => PrimFloat.div (float_of_Z k) 10) (Zrange 0 10).

Definition sampleHasNoNaN (p : GridPoint.t float) : bool :=
  negb (PrimFloat.is_nan (GridPoint.x p))
  && negb (PrimFloat.is_nan (GridPoint.y p))
  && negb (PrimFloat.is_nan (GridPoint.z p)).

(** A path that ended before the step budget of 100, without NaN. *)
Definition pathChecked (path : list (GridPoint.t float)) : bool :=
  (List.length path <? 101)%nat && forallb sampleHasNoNaN path.

Definition raysChecked {h : HostMath} : bool :=
  forallb (fun rot =>
    forallb (fun cs =>
      forallb (fun c =>
        forallb (fun s => pathChecked (rayFrom 30%float 10%float rot c s))
                (oneUlp (snd cs)))
              (oneUlp (fst cs)))
            trigTable)
          rotationSlider.

(** The index of the ray whose angle is nearest to [a]. *)
Definition rayIndex (a : float) : nat :=
  Z.to_nat (scaledRound (PrimFloat.div (PrimFloat.mul a 4) float_PI) 0).

(** A host that answers [Math.cos] and [Math.sin] at the eight ray angles
    from the table; it is not asked anything else when rays are traced. *)
Definition tableHost : HostMath :=
  {| host_exp := fun _ => PrimFloat.nan;
     host_cos := fun a => fst (nth (rayIndex a) trigTable (1, 0)%float);
     host_sin := fun a => snd (nth (rayIndex a) trigTable (1, 0)%float);
     host_pow := fun _ _ => PrimFloat.nan |}.

(** A particle inside the event horizon of mass 10 (radius 2), and one
    outside it whose trail holds the [n] points (0, 0), ..., (n - 1, 0). *)
Definition innerParticle : Particle.t float :=
  {| Particle.x := 1%float; Particle.y := 0%float;
     Particle.vx := 0%float; Particle.vy := 0.3%float;
     Particle.trail := [ {| Point.x := 2%float; Point.y := 0%float |} ];
     Particle.color := "#ff0000";
     Particle.size := 2%float |}.

Definition outerParticle (n : nat) : Particle.t float :=
  {| Particle.x := 30%float; Particle.y := 0%float;
     Particle.vx := 0%float; Particle.vy := 0.5%float;
     Particle.trail :=
       map (fun i => {| Point.x := float_of_Z (Z.of_nat i); Point.y := 0%float |})
           (seq 0 n);
     Particle.color := "#ff0000";
     Particle.size := 2%float |}.

(** Not below zero: a zero, a NaN, or a number with the sign bit clear. *)
Definition signClear (x : spec_float) : Prop :=
  match x with
  | S754_zero _ | S754_nan => True
  | S754_infinity s | S754_finite s _ _ => s = false
  end.

(** A number is printed as negative when its text begins with a minus
    sign. *)
Definition startsWithMinus (s : string) : bool :=
  match s with
  | String c _ => (c =? "-")%char
  | EmptyString => false
  end.

(** The digits the engine prints for a positive finite number carry no
    sign. *)
Definition unsignedDigits (t : HostText) : Prop :=
  forall x : float,
    PrimFloat.ltb 0 x = true -> PrimFloat.is_finite x = true ->
    startsWithMinus (host_digits x) = false.

(** The digits of a plain decimal numeral, as [(n, k)] for [n / 10^k]. *)
Fixpoint readDigits (s : string) (n : Z) (k : nat) (fraction : bool)
  : option (Z * nat) :=
  match s with
  | EmptyString => Some (n, k)
  | String c s' =>
    let d := nat_of_ascii c in
    if (c =? ".")%char then
      if fraction then None else readDigits s' n k true
    else if ((48 <=? d) && (d <=? 57))%nat then
      readDigits s' (10 * n + Z.of_nat (d - 48))
                 (if fraction then S k else k) fraction
    else None
  end.

Definition readDecimal (s : string) : float :=
  let magnitude (s : string) :=
    match readDigits s 0 0 false with
    | Some (n, k) =>
      PrimFloat.div (float_of_Z n) (float_of_Z (10 ^ Z.of_nat k))
    | None => PrimFloat.nan
    end in
  match s with
  | String "-" s' => PrimFloat.opp (magnitude s')
  | _ => magnitude s
  end.

(** A host that prints twenty decimals and reads plain decimal numerals. *)
Definition plainText : HostText :=
  {| host_digits := fun x => fixedDigits (scaledRound x 20) 20;
     host_parse := readDecimal |}.

End Cases64.

(** ** Rounding checks on binary64 *)

Module Rounding64.
Import F64 Cases64.

Set Warnings "-inexact-float".

(** Within [2^-50] of 1. *)
Definition nearOne (x : float) : bool :=
  PrimFloat.leb 0x1.ffffffffffff8p-1 x && PrimFloat.leb x 0x1.0000000000004p+0.

(** For mass [m] at radius [r] inside the domain: the space contraction is
    in (0, 1], the escape velocity in [0, 1), and the two identities of the
    formulas hold to within [2^-50]. *)
Definition contractionChecked {h : HostMath} (m r : Z) : bool :=
  let potential := PrimFloat.div (float_of_Z m) (float_of_Z r) in
  let contraction :=
    PrimFloat.sqrt
      (PrimFloat.sub 1 (PrimFloat.mul (PrimFloat.mul 2 potential) SCALE_FACTOR)) in
  let dilation := timeDilationOf potential SCALE_FACTOR in
  let escape := escapeVelocityOf potential SCALE_FACTOR in
  implb (sliderInDomain m r)
        (PrimFloat.ltb 0 contraction && PrimFloat.leb contraction 1
         && PrimFloat.leb 0 escape && PrimFloat.ltb escape 1
         && nearOne (PrimFloat.mul contraction dilation)
         && nearOne (PrimFloat.add (PrimFloat.mul escape escape)
                                   (PrimFloat.mul contraction contraction))).

(** For mass [m] and radii [r1], [r2] inside the domain: the relative time
    dilation times [1 + redshift] is 1 to within [2^-50], the relative time
    dilation is above 1 exactly when [r2 < r1], and the redshift is above 0
    exactly when [r1 < r2]. *)
Definition deeperChecked {h : HostMath} (m r1 r2 : Z) : bool :=
  let p1 := PrimFloat.div (float_of_Z m) (float_of_Z r1) in
  let p2 := PrimFloat.div (float_of_Z m) (float_of_Z r2) in
  let relative :=
    PrimFloat.div (timeDilationOf p2 SCALE_FACTOR) (timeDilationOf p1 SCALE_FACTOR) in
  let redshift := redshiftOf p1 p2 SCALE_FACTOR in
  implb (sliderInDomain m r1 && sliderInDomain m r2)
        (nearOne (PrimFloat.mul relative (PrimFloat.add 1 redshift))
         && Bool.eqb (PrimFloat.ltb 1 relative) (r2 <? r1)%Z
         && Bool.eqb (PrimFloat.ltb 0 redshift) (r1 <? r2)%Z).

(** The slider "Rotation Effect" at its step [k] of 10. *)
Definition rotationStep (k : Z) : float := PrimFloat.div (float_of_Z k) 10.

(** For mass [m] and rotation [k / 10]: the inner radius is between 0 and
    the mass, the outer one between the mass and twice the mass, their sum
    is twice the mass, and the horizon is drawn inside the ergosphere,
    strictly so when the rotation is not zero. *)
Definition kerrChecked {h : HostMath} (m k : Z) : bool :=
  let mass := float_of_Z m in
  let K := kerrHorizon mass (rotationStep k) in
  PrimFloat.leb 0 (Kerr.rMinus K) && PrimFloat.leb (Kerr.rMinus K) mass
  && PrimFloat.leb mass (Kerr.rPlus K)
  && PrimFloat.leb (Kerr.rPlus K) (PrimFloat.mul 2 mass)
  && PrimFloat.eqb (PrimFloat.add (Kerr.rPlus K) (Kerr.rMinus K))
                   (PrimFloat.mul 2 mass)
  && PrimFloat.leb (Kerr.horizonRadius K) (Kerr.ergoRadius K)
  && Bool.eqb (PrimFloat.ltb (Kerr.horizonRadius K) (Kerr.ergoRadius K))
              (0 <? k)%Z.

End Rounding64.

(** ** The start of the rays on binary64 *)

Module RayStart64.
Import F64 Cases64 Rounding64.

(** The radius of the start point of a ray from distance [r], from the
    values [c] and [s] of the cosine and the sine of its angle. *)
Definition startRadius (r c s : float) : float :=
  PrimFloat.sqrt
    (PrimFloat.add (PrimFloat.mul (PrimFloat.mul r c) (PrimFloat.mul r c))
                   (PrimFloat.mul (PrimFloat.mul r s) (PrimFloat.mul r s))).

(** At source distance [r], for the eight ray angles and every cosine and
    sine within one unit in the last place of the table: the start radius
    is [r] to within [2^-50], relatively. *)
Definition startsChecked (r : Z) : bool :=
  forallb (fun cs =>
    forallb (fun c =>
      forallb (fun s =>
                 nearOne (PrimFloat.div (startRadius (float_of_Z r) c s)
                                        (float_of_Z r)))
              (oneUlp (snd cs)))
            (oneUlp (fst cs)))
          trigTable.

End RayStart64.

(** ** Orbits, waves and the grid *)

(** The order of the merger's labels. *)
Definition stageRank (label : string) : nat :=
  if (label =? "Early inspiral")%string then 0
  else if (label =? "Late inspiral")%string then 1
  else if (label =? "Merger imminent")%string then 2
  else 3.

(** The points come in pairs: one around source 1, then one around source 2
    with the same radius and angle. *)
Fixpoint pairedSources {N : Type} (points : list (WavePoint.t N)) : Prop :=
  match points with
  | [] => True
  | p1 :: p2 :: rest =>
    WavePoint.source p1 = 1%Z /\ WavePoint.source p2 = 2%Z
    /\ WavePoint.radius p1 = WavePoint.radius p2
    /\ WavePoint.angle p1 = WavePoint.angle p2
    /\ pairedSources rest
  | _ => False
  end.

(** A point [updateWaves] has not touched yet. *)
Definition notYetUpdated {N : Type} (p : WavePoint.t N) : Prop :=
  WavePoint.displacement p = None
  /\ WavePoint.sourceX p = None /\ WavePoint.sourceY p = None.

(** Successive calls [updateWaves(points, time, amplitude, frequency)], one
    per frame, each on the result of the one before. *)
Definition waveFrames {N : Type} `{Number N}
  (frames : list (N * N * N)) (points : list (WavePoint.t N))
  : list (WavePoint.t N) :=
  fold_left (fun pts f => updateWaves pts (fst (fst f)) (snd (fst f)) (snd f))
            frames points.

(** A point of the grid is the cell of its own coordinates. *)
Definition ownCell {N : Type} `{Number N} `{NumberMore N}
  (mass rotation : N) (p : GridPoint.t N) : Prop :=
  gridCell mass rotation (GridPoint.x p) (GridPoint.y p) = [p].

(** The coordinates -30, -27, ..., 30 of the grid, on binary64. *)
Definition lattice : list float :=
  map (fun i => F64.float_of_Z (3 * i - 30)) (Cases64.Zrange 0 20).

Definition onLattice (p : GridPoint.t float) : bool :=
  existsb (PrimFloat.eqb (GridPoint.x p)) lattice
  && existsb (PrimFloat.eqb (GridPoint.y p)) lattice.

(** An engine's [Math.atan2] at the origin: [atan2(0, 0)] is 0. *)
Definition originAtan2 : F64More.HostAtan2 :=
  {| F64More.host_atan2 := fun _ _ => 0%float |}.

(** The test of [updateParticles] for a particle inside the event
    horizon. *)
Definition insideHorizon {N : Type} `{Number N} (centralMass : N)
  (p : Particle.t N) : bool :=
  nltb (Math_sqrt (nadd (nmul (Particle.x p) (Particle.x p))
                        (nmul (Particle.y p) (Particle.y p))))
       (nmul (nmul (fromZ 2) centralMass) SCALE_FACTOR).

Unset Implicit Arguments.

(** * Properties *)

Import Ideal.

(** ** Laws of the formulas over the reals *)

Module IdealLaws.
Local Open Scope R_scope.

Lemma dec_R (m : Z) (k : nat) : dec m k = IZR m / IZR (10 ^ Z.of_nat k).
Proof. reflexivity. Qed.

Lemma SCALE_FACTOR_R : SCALE_FACTOR = 1 / 10.
Proof. unfold SCALE_FACTOR. rewrite dec_R. simpl. lra. Qed.

(** What [calculateRelativisticEffects] stores, in terms of the formulas. *)
Lemma calculateRelativisticEffects_formulas (st : Controls R) :
  let e := calculateRelativisticEffects st in
  let p1 := mass st / observer1Position st in
  let p2 := mass st / observer2Position st in
  Observer.timeDilation (Effects.observer1 e) = timeDilationOf p1 SCALE_FACTOR
  /\ Observer.timeDilation (Effects.observer2 e) = timeDilationOf p2 SCALE_FACTOR
  /\ Effects.redshift e = redshiftOf p1 p2 SCALE_FACTOR.
Proof. repeat split. Qed.

Lemma sqrt_ratio_inverse (a b : R) :
  0 < a -> 0 < b -> sqrt (b / a) * sqrt (a / b) = 1.
Proof.
  intros Ha Hb.
  rewrite <- sqrt_mult_alt.
  - replace (b / a * (a / b)) with 1 by (field; lra).
    apply sqrt_1.
  - apply Rlt_le, Rdiv_lt_0_compat; assumption.
Qed.

Lemma one_plus_redshiftOf (p1 p2 s : R) :
  1 + redshiftOf p1 p2 s = sqrt ((1 - 2 * p2 * s) / (1 - 2 * p1 * s)).
Proof. unfold redshiftOf. cbn. ring. Qed.

(** In exact arithmetic, in the valid domain, swapping the two observers
    inverts the redshift:
    (1 + redshift(p1, p2, s)) * (1 + redshift(p2, p1, s)) = 1.  On binary64
    this holds up to rounding (module [F64Rounding]). *)
Theorem redshift_swap_inverse (p1 p2 s : R) :
  2 * p1 * s < 1 ->
  2 * p2 * s < 1 ->
  (1 + redshiftOf p1 p2 s) * (1 + redshiftOf p2 p1 s) = 1.
Proof.
  intros H1 H2.
  rewrite !one_plus_redshiftOf.
  apply sqrt_ratio_inverse; lra.
Qed.

(** The same law on the records [calculateRelativisticEffects] returns for
    a configuration and for the one with the observers exchanged. *)
Corollary redshift_swap_observers (st : Controls R) :
  2 * (mass st / observer1Position st) * SCALE_FACTOR < 1 ->
  2 * (mass st / observer2Position st) * SCALE_FACTOR < 1 ->
  (1 + Effects.redshift (calculateRelativisticEffects st))
  * (1 + Effects.redshift (calculateRelativisticEffects (swapObservers st))) = 1.
Proof.
  intros H1 H2.
  destruct (calculateRelativisticEffects_formulas st) as (_ & _ & Hr).
  destruct (calculateRelativisticEffects_formulas (swapObservers st))
    as (_ & _ & Hr').
  cbv zeta in Hr, Hr'. rewrite Hr, Hr'. cbn [swapObservers mass
    observer1Position observer2Position].
  rewrite !one_plus_redshiftOf.
  apply sqrt_ratio_inverse; lra.
Qed.

(** *** The decaying orbit *)

Lemma exp_monotone (a b : R) : a <= b -> exp a <= exp b.
Proof.
  intros [Hlt | Heq].
  - left. apply exp_increasing. exact Hlt.
  - right. rewrite Heq. reflexivity.
Qed.

(** [max(m, d0 * exp(-t * k))] does not increase with [t] and stays at or
    above [m], for [d0 >= 0] and [k >= 0]. *)
Lemma decay_law_monotone (m d0 k t1 t2 : R) :
  0 <= d0 -> 0 <= k -> t1 <= t2 ->
  Rmax m (d0 * exp (- t2 * k)) <= Rmax m (d0 * exp (- t1 * k)).
Proof.
  intros Hd Hk Ht.
  assert (He : exp (- t2 * k) <= exp (- t1 * k)) by (apply exp_monotone; nra).
  assert (Hm : d0 * exp (- t2 * k) <= d0 * exp (- t1 * k))
    by (apply Rmult_le_compat_l; assumption).
  apply Rmax_lub.
  - apply Rmax_l.
  - eapply Rle_trans; [exact Hm | apply Rmax_r].
Qed.

Lemma decay_law_bounded (m d0 k t : R) : m <= Rmax m (d0 * exp (- t * k)).
Proof. apply Rmax_l. Qed.

Lemma waveOrbit_distance (t : R) :
  fst (waveOrbit t) = Rmax 2 (10 * exp (- t * (3 / 100))).
Proof.
  unfold waveOrbit. cbn. reflexivity.
Qed.

Lemma mergerOrbit_separation (mass t : R) :
  Merger.separation (mergerOrbit mass t) = Rmax 5 (40 * exp (- t * (3 / 100))).
Proof.
  unfold mergerOrbit. cbn. reflexivity.
Qed.

End IdealLaws.

(** ** The orbit state is a function of the elapsed time *)

Section OrbitPure.
Context {N : Type} `{Number N}.

(** Whatever the mass, the separation, the orbital frequency and the orbital
    angle of the merger are those of the frame time. *)
Lemma mergerOrbit_time_only (mass mass' time : N) :
  Merger.separation (mergerOrbit mass time)
  = Merger.separation (mergerOrbit mass' time)
  /\ Merger.orbitFrequency (mergerOrbit mass time)
     = Merger.orbitFrequency (mergerOrbit mass' time)
  /\ Merger.orbitAngle (mergerOrbit mass time)
     = Merger.orbitAngle (mergerOrbit mass' time).
Proof. repeat split. Qed.

(** Every point [updateWaves] returns carries the source position that
    [waveOrbit time] fixes, whatever the points, amplitude and frequency. *)
Lemma updateWaves_sources (points : list (WavePoint.t N))
  (time amplitude frequency : N) (p : WavePoint.t N) :
  In p (updateWaves points time amplitude frequency) ->
  let distance := fst (waveOrbit time) in
  let orbitAngle := snd (waveOrbit time) in
  (WavePoint.sourceX p = Some (nmul (nneg distance) (Math_cos orbitAngle))
   /\ WavePoint.sourceY p = Some (nmul (nneg distance) (Math_sin orbitAngle)))
  \/ (WavePoint.sourceX p = Some (nmul distance (Math_cos orbitAngle))
      /\ WavePoint.sourceY p = Some (nmul distance (Math_sin orbitAngle))).
Proof.
  unfold updateWaves. intros Hin.
  apply in_map_iff in Hin. destruct Hin as [q [Hq _]]. subst p. cbn.
  destruct (WavePoint.source q =? 1)%Z; [left | right]; split; reflexivity.
Qed.

End OrbitPure.

(** C6: the orbit state is a pure function of the elapsed time (the same
    time gives the same separation and angle, on the reals and on binary64
    alike), and the separation [max(minSeparation, d0 * exp(-k t))] of both
    orbit laws ([updateWaves]: d0 = 10, min 2; merger: d0 = 40, min 5;
    k = 0.03) does not increase with time and never falls below its
    minimum. *)
Theorem orbit_state_pure_and_decaying (t1 t2 : R) :
  (t1 <= t2)%R ->
  (fst (waveOrbit t2) <= fst (waveOrbit t1))%R
  /\ (2 <= fst (waveOrbit t1))%R
  /\ (forall mass : R,
        (Merger.separation (mergerOrbit mass t2)
         <= Merger.separation (mergerOrbit mass t1))%R
        /\ (5 <= Merger.separation (mergerOrbit mass t1))%R)
  /\ (forall (N : Type) (HN : Number N) (t t' mass mass' : N),
        t = t' ->
        waveOrbit t = waveOrbit t'
        /\ Merger.separation (mergerOrbit mass t)
           = Merger.separation (mergerOrbit mass' t')
        /\ Merger.orbitAngle (mergerOrbit mass t)
           = Merger.orbitAngle (mergerOrbit mass' t')).
Proof.
  intros Ht. repeat split.
  - rewrite !IdealLaws.waveOrbit_distance.
    apply IdealLaws.decay_law_monotone; lra.
  - rewrite IdealLaws.waveOrbit_distance. apply IdealLaws.decay_law_bounded.
  - rewrite !IdealLaws.mergerOrbit_separation.
    apply IdealLaws.decay_law_monotone; lra.
  - rewrite IdealLaws.mergerOrbit_separation.
    apply IdealLaws.decay_law_bounded.
  - subst. reflexivity.
  - subst. apply mergerOrbit_time_only.
  - subst. apply mergerOrbit_time_only.
Qed.

Lemma orbit_state_pure_and_decaying_witness :
  (0 <= 1)%R
  /\ (fst (waveOrbit 1%R) <= fst (waveOrbit 0%R))%R
  /\ (5 <= Merger.separation (mergerOrbit 10%R 0%R))%R.
Proof.
  split; [lra |].
  destruct (orbit_state_pure_and_decaying 0 1 ltac:(lra)) as (Hw & _ & Hm & _).
  split; [exact Hw | apply (Hm 10%R)].
Defined.

(** ** The particle integrator *)

Section RandLaws.
Context {A B : Type}.
Variable f : A -> Rand B.

Lemma mapM_cons (a : A) (l : list A) (k : nat) :
  fst (mapM f (a :: l) k)
  = fst (f a k) :: fst (mapM f l (snd (f a k))).
Proof.
  cbn. unfold bind, ret.
  destruct (f a k) as [b k1]. cbn.
  destruct (mapM f l k1) as [bs k2]. reflexivity.
Qed.

Lemma mapM_length (l : list A) (k : nat) :
  List.length (fst (mapM f l k)) = List.length l.
Proof.
  revert k. induction l as [| a l IH]; intros k.
  - reflexivity.
  - rewrite mapM_cons. cbn. rewrite IH. reflexivity.
Qed.

(** Each element of the result is the callback's result on the element at
    the same index. *)
Lemma mapM_pointwise (l : list A) (k : nat) :
  Forall2 (fun a b => exists k', b = fst (f a k')) l (fst (mapM f l k)).
Proof.
  revert k. induction l as [| a l IH]; intros k.
  - constructor.
  - rewrite mapM_cons. constructor.
    + exists k. reflexivity.
    + apply IH.
Qed.

Lemma mapM_Forall (P : A -> Prop) (Q : B -> Prop) :
  (forall a k, P a -> Q (fst (f a k))) ->
  forall (l : list A) (k : nat), Forall P l -> Forall Q (fst (mapM f l k)).
Proof.
  intros HPQ l. induction l as [| a l IH]; intros k Hall.
  - constructor.
  - rewrite mapM_cons. inversion Hall; subst.
    constructor; [apply HPQ; assumption | apply IH; assumption].
Qed.

Lemma mapM_Forall2 (R : A -> B -> Prop) :
  (forall a k, R a (fst (f a k))) ->
  forall (l : list A) (k : nat), Forall2 R l (fst (mapM f l k)).
Proof.
  intros HR l. induction l as [| a l IH]; intros k.
  - constructor.
  - rewrite mapM_cons. constructor; [apply HR | apply IH].
Qed.

End RandLaws.

Section ParticleLaws.
Context {N : Type} `{Number N}.
Variable Math_random : nat -> N.
Variable interpolateRainbow : N -> string.
Variable st : Controls N.

Abbreviation step := (updateParticles Math_random st).
Abbreviation step1 := (updateParticle Math_random st).
Abbreviation frames := (runFrames Math_random st).

(** The two branches of the callback. *)
Lemma updateParticle_respawn (dt centralMass rotation : N)
  (p : Particle.t N) (k : nat) :
  nltb (Math_sqrt (nadd (nmul (Particle.x p) (Particle.x p))
                        (nmul (Particle.y p) (Particle.y p))))
       (nmul (nmul (fromZ 2) centralMass) SCALE_FACTOR) = true ->
  let p' := fst (step1 dt centralMass rotation p k) in
  Particle.trail p' = []
  /\ Particle.color p' = Particle.color p
  /\ Particle.size p' = Particle.size p
  /\ snd (step1 dt centralMass rotation p k) = (3 + k)%nat.
Proof.
  intros Hr. unfold updateParticle. rewrite Hr.
  unfold bind, random, ret. cbn. repeat split.
Qed.

Lemma updateParticle_orbit (dt centralMass rotation : N)
  (p : Particle.t N) (k : nat) :
  nltb (Math_sqrt (nadd (nmul (Particle.x p) (Particle.x p))
                        (nmul (Particle.y p) (Particle.y p))))
       (nmul (nmul (fromZ 2) centralMass) SCALE_FACTOR) = false ->
  let p' := fst (step1 dt centralMass rotation p k) in
  let pushed :=
    Particle.trail p
    ++ [ {| Point.x := Particle.x p; Point.y := Particle.y p |} ] in
  Particle.trail p'
  = (if (20 <? List.length pushed)%nat then tl pushed else pushed)
  /\ Particle.color p' = Particle.color p
  /\ Particle.size p' = Particle.size p
  /\ snd (step1 dt centralMass rotation p k) = k.
Proof.
  intros Hr. unfold updateParticle. rewrite Hr.
  unfold ret. cbn. repeat split.
Qed.

Lemma updateParticle_trail (dt centralMass rotation : N)
  (p : Particle.t N) (k : nat) :
  trailBounded p -> trailBounded (fst (step1 dt centralMass rotation p k)).
Proof.
  unfold trailBounded. intros Hp.
  destruct (nltb (Math_sqrt (nadd (nmul (Particle.x p) (Particle.x p))
                                  (nmul (Particle.y p) (Particle.y p))))
                 (nmul (nmul (fromZ 2) centralMass) SCALE_FACTOR)) eqn:Hr.
  - destruct (updateParticle_respawn dt centralMass rotation p k Hr) as [Ht _].
    rewrite Ht. cbn. lia.
  - destruct (updateParticle_orbit dt centralMass rotation p k Hr) as [Ht _].
    rewrite Ht.
    destruct (20 <? List.length (Particle.trail p ++ [_]))%nat eqn:Hlen.
    + destruct (Particle.trail p ++ [_]) as [| q t] eqn:Hpush.
      * cbn. lia.
      * apply (f_equal (@List.length _)) in Hpush.
        rewrite length_app in Hpush. cbn in Hpush. cbn. lia.
    + apply Nat.ltb_ge in Hlen. exact Hlen.
Qed.

Lemma updateParticle_look (dt centralMass rotation : N)
  (p : Particle.t N) (k : nat) :
  sameLook p (fst (step1 dt centralMass rotation p k)).
Proof.
  unfold sameLook.
  destruct (nltb (Math_sqrt (nadd (nmul (Particle.x p) (Particle.x p))
                                  (nmul (Particle.y p) (Particle.y p))))
                 (nmul (nmul (fromZ 2) centralMass) SCALE_FACTOR)) eqn:Hr.
  - destruct (updateParticle_respawn dt centralMass rotation p k Hr)
      as (_ & Hc & Hs & _). split; assumption.
  - destruct (updateParticle_orbit dt centralMass rotation p k Hr)
      as (_ & Hc & Hs & _). split; assumption.
Qed.

Lemma runFrames_succ (dt centralMass rotation : N) (n : nat)
  (particles : list (Particle.t N)) (k : nat) :
  fst (frames dt centralMass rotation (S n) particles k)
  = fst (frames dt centralMass rotation n
           (fst (step particles dt centralMass rotation k))
           (snd (step particles dt centralMass rotation k))).
Proof.
  cbn. unfold bind.
  destruct (updateParticles Math_random st particles dt centralMass rotation k).
  reflexivity.
Qed.

Lemma updateParticles_trails (dt centralMass rotation : N)
  (particles : list (Particle.t N)) (k : nat) :
  Forall trailBounded particles ->
  Forall trailBounded (fst (step particles dt centralMass rotation k)).
Proof.
  unfold updateParticles. apply mapM_Forall.
  intros p k' Hp. apply updateParticle_trail. exact Hp.
Qed.

Lemma runFrames_trails (dt centralMass rotation : N) (n : nat) :
  forall (particles : list (Particle.t N)) (k : nat),
  Forall trailBounded particles ->
  Forall trailBounded (fst (frames dt centralMass rotation n particles k)).
Proof.
  induction n as [| n IH]; intros particles k Hall.
  - exact Hall.
  - rewrite runFrames_succ. apply IH. apply updateParticles_trails. exact Hall.
Qed.

Lemma initParticles_trails (k : nat) :
  Forall trailBounded
    (fst (initParticles Math_random interpolateRainbow st k)).
Proof.
  unfold initParticles.
  apply mapM_Forall with (P := fun _ => True).
  - intros i k' _. unfold trailBounded, initParticle, bind, random, ret.
    cbn. lia.
  - apply Forall_forall. intros; exact I.
Qed.

Lemma updateParticles_looks (dt centralMass rotation : N)
  (particles : list (Particle.t N)) (k : nat) :
  Forall2 sameLook particles (fst (step particles dt centralMass rotation k)).
Proof.
  unfold updateParticles. apply mapM_Forall2.
  intros p k'. apply updateParticle_look.
Qed.

Lemma sameLook_chain (l1 l2 : list (Particle.t N)) :
  Forall2 sameLook l1 l2 ->
  forall l3, Forall2 sameLook l2 l3 -> Forall2 sameLook l1 l3.
Proof.
  induction 1 as [| p q l1 l2 [Hc Hs] _ IH]; intros l3 H23;
    inversion H23 as [| q' r l2' l3' [Hc' Hs'] Hrest]; subst; constructor.
  - split; congruence.
  - apply IH. exact Hrest.
Qed.

Lemma runFrames_length (dt centralMass rotation : N) (n : nat) :
  forall (particles : list (Particle.t N)) (k : nat),
  List.length (fst (frames dt centralMass rotation n particles k))
  = List.length particles.
Proof.
  induction n as [| n IH]; intros particles k.
  - reflexivity.
  - rewrite runFrames_succ, IH. apply mapM_length.
Qed.

Lemma runFrames_looks (dt centralMass rotation : N) (n : nat) :
  forall (particles : list (Particle.t N)) (k : nat),
  Forall2 sameLook particles
    (fst (frames dt centralMass rotation n particles k)).
Proof.
  induction n as [| n IH]; intros particles k.
  - cbn. induction particles; constructor; [split; reflexivity | assumption].
  - rewrite runFrames_succ.
    eapply sameLook_chain; [apply updateParticles_looks | apply IH].
Qed.

(** C4: [updateParticles] returns as many particles as it is given, after
    one step and after any number of steps; the particle at each index is
    the result of the callback on the particle at that index, so a particle
    inside the event horizon is replaced by a sampled one, not removed. *)
Theorem updateParticles_conserves_population (dt centralMass rotation : N)
  (particles : list (Particle.t N)) (k : nat) :
  List.length (fst (updateParticles Math_random st particles dt centralMass rotation k))
  = List.length particles
  /\ Forall2 (fun p p' =>
                exists k', p' = fst (updateParticle Math_random st dt centralMass rotation p k'))
       particles
       (fst (updateParticles Math_random st particles dt centralMass rotation k))
  /\ forall n : nat,
       List.length (fst (runFrames Math_random st dt centralMass rotation n particles k))
       = List.length particles.
Proof.
  split; [apply mapM_length |].
  split; [apply mapM_pointwise |].
  intros n. apply runFrames_length.
Qed.

(** C5: a step keeps every trail of at most 20 entries at most 20 entries
    long (a respawned particle's trail is empty, an orbiting particle's
    trail gains its old position and loses its oldest entry when that makes
    21), for one step and for any number of steps; the particles of
    [initParticles] start with empty trails, so their trails never exceed
    20 entries. *)
Theorem trail_never_exceeds_20 (dt centralMass rotation : N)
  (particles : list (Particle.t N)) (k : nat) :
  Forall trailBounded particles ->
  Forall trailBounded
    (fst (updateParticles Math_random st particles dt centralMass rotation k))
  /\ (forall n : nat,
        Forall trailBounded
          (fst (runFrames Math_random st dt centralMass rotation n particles k)))
  /\ (forall n k0 k1 : nat,
        Forall trailBounded
          (fst (runFrames Math_random st dt centralMass rotation n
                  (fst (initParticles Math_random interpolateRainbow st k0)) k1))).
Proof.
  intros Hall. split; [apply updateParticles_trails; exact Hall |].
  split.
  - intros n. apply runFrames_trails. exact Hall.
  - intros n k0 k1. apply runFrames_trails. apply initParticles_trails.
Qed.

(** C10: a step leaves the color and the size of every particle as they
    were, on the orbiting branch and on the respawn branch, for one step and
    for any number of steps. *)
Theorem updateParticles_keeps_color_and_size (dt centralMass rotation : N)
  (particles : list (Particle.t N)) (k : nat) :
  (forall (p : Particle.t N) (k' : nat),
     sameLook p (fst (updateParticle Math_random st dt centralMass rotation p k')))
  /\ Forall2 sameLook particles
       (fst (updateParticles Math_random st particles dt centralMass rotation k))
  /\ forall n : nat,
       Forall2 sameLook particles
         (fst (runFrames Math_random st dt centralMass rotation n particles k)).
Proof.
  split; [intros p k'; apply updateParticle_look |].
  split; [apply updateParticles_looks |].
  intros n. apply runFrames_looks.
Qed.

End ParticleLaws.

Lemma trail_never_exceeds_20_witness :
  Forall trailBounded [restingParticle]
  /\ Forall trailBounded
       (fst (updateParticles (fun _ => (1 / 2)%R) defaultControlsR
               [restingParticle] (1 / 10)%R 10%R 0%R 0)).
Proof.
  assert (H0 : Forall trailBounded [restingParticle]).
  { repeat constructor. }
  split; [exact H0 |].
  apply (trail_never_exceeds_20 (fun _ => (1 / 2)%R) (fun _ => "red"%string)
           defaultControlsR (1 / 10)%R 10%R 0%R [restingParticle] 0 H0).
Defined.

(** ** The geodesic tracer *)

Section TracerLaws.
Context {N : Type} `{Number N}.

Lemma lightPath_rayFrom (sourceDistance mass rotation : N) (numPaths i : nat) :
  let angle :=
    ndiv (nmul (nmul (fromZ (Z.of_nat i)) (fromZ 2)) Math_PI)
         (fromZ (Z.of_nat numPaths)) in
  lightPath sourceDistance mass rotation numPaths i
  = rayFrom sourceDistance mass rotation (Math_cos angle) (Math_sin angle).
Proof. reflexivity. Qed.

(** The loop stops at the first position with [r < 2.5]: nothing is pushed
    for it or after it. *)
Lemma traceSteps_break (mass rotation : N) (steps : nat) (x y vx vy : N) :
  nltb (Math_sqrt (nadd (nmul (nadd x vx) (nadd x vx))
                        (nmul (nadd y vy) (nadd y vy)))) (dec 25 1) = true ->
  traceSteps mass rotation (S steps) x y vx vy = [].
Proof. intros Hr. cbn [traceSteps]. cbv zeta. rewrite Hr. reflexivity. Qed.

(** Every sample the loop pushes was tested: its radius is not below 2.5. *)
Lemma traceSteps_outside (mass rotation : N) (steps : nat) :
  forall (x y vx vy : N) (p : GridPoint.t N),
  In p (traceSteps mass rotation steps x y vx vy) ->
  nltb (sampleRadius p) (dec 25 1) = false.
Proof.
  induction steps as [| steps IH]; intros x y vx vy p Hin.
  - destruct Hin.
  - cbn [traceSteps] in Hin. cbv zeta in Hin.
    destruct (nltb (Math_sqrt (nadd (nmul (nadd x vx) (nadd x vx))
                                    (nmul (nadd y vy) (nadd y vy))))
                   (dec 25 1)) eqn:Hr.
    + destruct Hin.
    + destruct Hin as [Hp | Hin].
      * subst p. exact Hr.
      * eapply IH. exact Hin.
Qed.

Lemma In_tl_cons {A : Type} (a : A) (l : list A) (p : A) :
  In p (tl (a :: l)) -> In p l.
Proof. intros Hin. exact Hin. Qed.

Lemma calculateLightPaths_outside (st : Controls N) (mass rotation : N)
  (numPaths : nat) (path : list (GridPoint.t N)) (p : GridPoint.t N) :
  In path (calculateLightPaths st mass rotation numPaths) ->
  In p (tl path) ->
  nltb (sampleRadius p) (dec 25 1) = false.
Proof.
  unfold calculateLightPaths. intros Hpath Hp.
  apply in_map_iff in Hpath. destruct Hpath as [i [Hi _]]. subst path.
  rewrite lightPath_rayFrom in Hp. unfold rayFrom in Hp.
  apply In_tl_cons in Hp.
  eapply traceSteps_outside. exact Hp.
Qed.

End TracerLaws.

(** ** What the code returns on binary64 *)

Module F64Laws.
Import F64 F64Text Cases64.

Set Warnings "-inexact-float".

Lemma Zrange_In (lo hi z : Z) : (lo <= z <= hi)%Z -> In z (Zrange lo hi).
Proof.
  intros Hz. unfold Zrange. apply in_map_iff.
  exists (Z.to_nat (z - lo)). split; [lia |].
  apply in_seq. lia.
Qed.

Section Host.
Context {h : HostMath}.

Lemma SCALE_FACTOR_float : SCALE_FACTOR = 0.1%float.
Proof. reflexivity. Qed.

Lemma decimal_literals :
  dec 25 1 = 2.5%float /\ dec 2 1 = 0.2%float /\ dec 5 1 = 0.5%float
  /\ dec 5 2 = 0.05%float /\ dec 3 2 = 0.03%float /\ dec 8 1 = 0.8%float
  /\ dec 4 1 = 0.4%float /\ dec 6 1 = 0.6%float /\ dec 15 1 = 1.5%float.
Proof. repeat split. Qed.

Lemma timeDilation_table :
  forallb (fun m => forallb (timeDilationChecked m) (Zrange 5 50))
          (Zrange 1 50) = true.
Proof. vm_compute. reflexivity. Qed.

Lemma timeDilationChecked_sliders (m r : Z) :
  (1 <= m <= 50)%Z -> (5 <= r <= 50)%Z -> timeDilationChecked m r = true.
Proof.
  intros Hm Hr.
  pose proof timeDilation_table as Htab.
  rewrite forallb_forall in Htab.
  specialize (Htab m (Zrange_In _ _ _ Hm)).
  rewrite forallb_forall in Htab.
  exact (Htab r (Zrange_In _ _ _ Hr)).
Qed.

End Host.

(** C1, as stated, fails: with mass 50 and the second observer at radius 5
    (both within the sliders' ranges) [2 * potential * SCALE_FACTOR] is 2,
    yet [calculateRelativisticEffects] returns its record as for any input,
    with NaN as the second observer's time dilation, as the relative time
    dilation and as the redshift; with the first observer at radius 10 its
    time dilation is Infinity. *)
Lemma calculateRelativisticEffects_returns_NaN :
  (forall h : HostMath,
     let e := calculateRelativisticEffects deepControls in
     PrimFloat.leb 1
       (PrimFloat.mul
          (PrimFloat.mul 2 (Observer.potential (Effects.observer2 e)))
          SCALE_FACTOR) = true
     /\ PrimFloat.is_nan (Observer.timeDilation (Effects.observer2 e)) = true
     /\ PrimFloat.is_nan (Effects.relativeTimeDilation e) = true
     /\ PrimFloat.is_nan (Effects.redshift e) = true)
  /\ (forall h : HostMath,
        Observer.timeDilation
          (Effects.observer1 (calculateRelativisticEffects (sliders 50 10 20 120)))
        = PrimFloat.infinity).
Proof.
  split; intros h; vm_compute; repeat split.
Qed.

(** C1, amended: [calculateRelativisticEffects] does not validate its
    domain and has no error result; inside the domain
    ([2 * potential * SCALE_FACTOR < 1]), for every mass and every observer
    radius the sliders supply, the time dilation it returns is a finite
    number, at least 1 (neither NaN nor Infinity). *)
Theorem timeDilation_finite_inside_domain (h : HostMath) (m r1 r2 a : Z) :
  (1 <= m <= 50)%Z -> (10 <= r1 <= 50)%Z -> (5 <= r2 <= 45)%Z ->
  let e := calculateRelativisticEffects (sliders m r1 r2 a) in
  let inDomain (o : Observer.t float) :=
    PrimFloat.ltb
      (PrimFloat.mul (PrimFloat.mul 2 (Observer.potential o)) SCALE_FACTOR) 1 in
  let finiteAtLeast1 (o : Observer.t float) :=
    PrimFloat.is_finite (Observer.timeDilation o) = true
    /\ PrimFloat.leb 1 (Observer.timeDilation o) = true in
  (inDomain (Effects.observer1 e) = true -> finiteAtLeast1 (Effects.observer1 e))
  /\ (inDomain (Effects.observer2 e) = true -> finiteAtLeast1 (Effects.observer2 e)).
Proof.
  intros Hm H1 H2. cbv zeta.
  assert (Hc1 : timeDilationChecked m r1 = true)
    by (apply timeDilationChecked_sliders; lia).
  assert (Hc2 : timeDilationChecked m r2 = true)
    by (apply timeDilationChecked_sliders; lia).
  unfold timeDilationChecked in Hc1, Hc2.
  split; intros Hd.
  - change (PrimFloat.ltb
              (PrimFloat.mul (PrimFloat.mul 2 (PrimFloat.div (float_of_Z m) (float_of_Z r1)))
                 SCALE_FACTOR) 1 = true) in Hd.
    rewrite Hd in Hc1. cbn [implb] in Hc1.
    apply andb_true_iff in Hc1. exact Hc1.
  - change (PrimFloat.ltb
              (PrimFloat.mul (PrimFloat.mul 2 (PrimFloat.div (float_of_Z m) (float_of_Z r2)))
                 SCALE_FACTOR) 1 = true) in Hd.
    rewrite Hd in Hc2. cbn [implb] in Hc2.
    apply andb_true_iff in Hc2. exact Hc2.
Qed.

Lemma timeDilation_finite_inside_domain_witness :
  (1 <= 10 <= 50)%Z /\ (10 <= 30 <= 50)%Z /\ (5 <= 20 <= 45)%Z
  /\ forall h : HostMath,
       PrimFloat.is_finite
         (Observer.timeDilation
            (Effects.observer2 (calculateRelativisticEffects initialControls)))
       = true.
Proof.
  split; [lia | split; [lia | split; [lia |]]].
  intros h.
  destruct (timeDilation_finite_inside_domain h 10 30 20 120
              ltac:(lia) ltac:(lia) ltac:(lia)) as (_ & H2).
  apply H2. reflexivity.
Defined.

(** *** One step of a particle *)

(** With [Math.random()] returning 0 three times, the particle inside the
    horizon is respawned at (10, 0) with speed 0.3 * 0.8, an empty trail and
    its own color and size. *)
Example respawn_step :
  @updateParticle float (@float_Number tableHost) (fun _ => 0%float)
    initialControls 0.1%float 10%float 0%float innerParticle 7
  = ({| Particle.x := 10%float; Particle.y := 0%float;
        Particle.vx := (-0)%float; Particle.vy := 0.23999999999999999%float;
        Particle.trail := [];
        Particle.color := "#ff0000";
        Particle.size := 2%float |}, 10%nat).
Proof. vm_compute. reflexivity. Qed.

(** The particle outside moves and remembers where it was, without a call
    of [Math.random()]; a full trail loses its oldest point. *)
Example orbit_step (h : HostMath) :
  updateParticle (fun _ => 0%float) initialControls 0.1%float 10%float
    0%float (outerParticle 2) 7
  = ({| Particle.x := 29.99988888888889%float;
        Particle.y := 0.050000000000000003%float;
        Particle.vx := (-0.0011111111111111111)%float;
        Particle.vy := 0.5%float;
        Particle.trail :=
          [ {| Point.x := 0%float; Point.y := 0%float |};
            {| Point.x := 1%float; Point.y := 0%float |};
            {| Point.x := 30%float; Point.y := 0%float |} ];
        Particle.color := "#ff0000";
        Particle.size := 2%float |}, 7%nat)
  /\ map (fun q => Point.x q)
       (Particle.trail
          (fst (updateParticle (fun _ => 0%float) initialControls 0.1%float
                  10%float 0%float (outerParticle 20) 7)))
     = map (fun i => float_of_Z i) (Zrange 1 19) ++ [30%float].
Proof. vm_compute. split; reflexivity. Qed.

(** *** The redshift law on binary64 *)

(** With rounding, the product [(1 + r12) * (1 + r21)] of the two redshifts
    is 1 to within [2^-50] for every setting of the sliders inside the
    domain, and not always 1. *)
Lemma redshift_swap_binary64 (h : HostMath) :
  forallb (fun m =>
    forallb (fun r1 =>
      forallb (fun r2 => redshiftProductChecked m r1 r2) (Zrange 5 45))
            (Zrange 10 50))
          (Zrange 1 50) = true
  /\ redshiftProduct 10 30 20 = 1%float
  /\ redshiftProduct 10 30 31 = 0x1.fffffffffffffp-1%float.
Proof. vm_compute. repeat split. Qed.

(** *** The end-to-end example: mass 10, observers at radii 30 and 20 *)

(** C2, as stated, fails: the first observer's time dilation is above
    1.035, not 1.0339 to four decimals, and the relative time dilation is
    below 1.019, not 1.0195. *)
Lemma specExample_refuted :
  ~ (exists h : HostMath, specExample h)
  /\ (forall h : HostMath,
        let e := calculateRelativisticEffects initialControls in
        PrimFloat.ltb 1.035 (Observer.timeDilation (Effects.observer1 e)) = true
        /\ PrimFloat.ltb (Effects.relativeTimeDilation e) 1.019 = true).
Proof.
  split.
  - intros [h (_ & _ & Htd1 & _)]. vm_compute in Htd1. discriminate Htd1.
  - intros h. vm_compute. split; reflexivity.
Qed.

(** C2, amended: for mass 10 and observers at radii 30 and 20,
    [calculateRelativisticEffects] returns potential1 = 0.333...,
    potential2 = 0.5, timeDilation1 = 1.0351, timeDilation2 = 1.0541 and
    relativeTimeDilation = 1.0184 (to four decimals), above 1: the second
    observer's clock runs slower, as the time-dilation fact says. *)
Theorem relativistic_effects_example (h : HostMath) (t : HostText) :
  let e := calculateRelativisticEffects initialControls in
  Observer.potential (Effects.observer1 e) = PrimFloat.div 10 30
  /\ roundsTo (Observer.potential (Effects.observer1 e)) 3 333
  /\ Observer.potential (Effects.observer2 e) = 0.5%float
  /\ roundsTo (Observer.timeDilation (Effects.observer1 e)) 4 10351
  /\ roundsTo (Observer.timeDilation (Effects.observer2 e)) 4 10541
  /\ roundsTo (Effects.relativeTimeDilation e) 4 10184
  /\ PrimFloat.ltb 1 (Effects.relativeTimeDilation e) = true
  /\ Facts.timeDilationFact (generateFacts initialControls e)
     = "Observer 2 experiences time 1.8350% slower than Observer 1 due to being deeper in the gravitational well."%string.
Proof.
  vm_compute. repeat split.
Qed.

(** *** The Kerr horizon *)

(** C8, as stated, fails in its first example: for mass 10 and spin 0.5 the
    outer horizon radius is 1.9987 to four decimals, not 1.9994. *)
Lemma kerr_example_refuted :
  ~ (exists h : HostMath,
       roundsTo (Kerr.horizonRadius (kerrHorizon 10%float 0.5%float)) 4 19994)
  /\ (forall h : HostMath,
        PrimFloat.ltb (Kerr.horizonRadius (kerrHorizon 10%float 0.5%float))
                      1.999 = true).
Proof.
  split.
  - intros [h Hr]. vm_compute in Hr. discriminate Hr.
  - intros h. vm_compute. reflexivity.
Qed.

(** C8, amended: the outer horizon radius is
    [(mass + sqrt(mass^2 - spin^2)) * SCALE_FACTOR] for every mass and spin,
    on every instance of Numbers; on binary64, mass 10 and spin 0.5 give
    1.9987 to four decimals, and the extremal case spin = mass = 10 gives
    rPlus = rMinus = 10 and an outer radius (and a scaled inner radius) of
    exactly 1. *)
Theorem kerr_outer_horizon :
  (forall (N : Type) (HN : Number N) (mass spin : N),
     Kerr.horizonRadius (kerrHorizon mass spin)
     = nmul (nadd mass (Math_sqrt (nsub (nmul mass mass) (nmul spin spin))))
            SCALE_FACTOR)
  /\ (forall h : HostMath,
        roundsTo (Kerr.horizonRadius (kerrHorizon 10%float 0.5%float)) 4 19987
        /\ Kerr.horizonRadius (kerrHorizon 10%float 10%float) = 1%float
        /\ Kerr.rPlus (kerrHorizon 10%float 10%float) = 10%float
        /\ Kerr.rMinus (kerrHorizon 10%float 10%float) = 10%float
        /\ PrimFloat.mul (Kerr.rMinus (kerrHorizon 10%float 10%float))
                         SCALE_FACTOR = 1%float).
Proof.
  split.
  - intros N HN mass spin. reflexivity.
  - intros h. vm_compute. repeat split.
Qed.

(** *** Light rays from radius 30 around mass 10 *)

(** The ray of angle 0, without rotation: it starts at (30, 0), moves
    inwards by 0.5 a step and ends with the sample at radius 2.5, the 55th
    step; the next position, at radius 2, is not recorded. *)
Example first_ray :
  let path :=
    nth 0 (@calculateLightPaths float (@float_Number tableHost)
             initialControls 10%float 0%float 8) [] in
  let sample (x y z : float) :=
    {| GridPoint.x := x; GridPoint.y := y; GridPoint.z := z |} in
  List.length path = 56%nat
  /\ (nth 0 path (sample 0 0 0) = sample 30 0 (-0.33333333333333331))%float
  /\ (nth 1 path (sample 0 0 0) = sample 29.5 0 (-0.33898305084745761))%float
  /\ (nth 55 path (sample 0 0 0) = sample 2.5 0 (-4))%float.
Proof. vm_compute. repeat split. Qed.

Lemma raysChecked_true (h : HostMath) : raysChecked = true.
Proof. vm_compute. reflexivity. Qed.

Lemma tableHost_accurate : accurateTrig tableHost.
Proof.
  intros i Hi.
  do 8 (destruct i as [| i]; [split; right; left; reflexivity |]).
  lia.
Qed.

Lemma pathChecked_spec (path : list (GridPoint.t float)) :
  pathChecked path = true ->
  (List.length path < 101)%nat
  /\ forall p : GridPoint.t float, In p path ->
       PrimFloat.is_nan (GridPoint.x p) = false
       /\ PrimFloat.is_nan (GridPoint.y p) = false
       /\ PrimFloat.is_nan (GridPoint.z p) = false.
Proof.
  unfold pathChecked. intros Hc.
  apply andb_true_iff in Hc. destruct Hc as [Hlen Hall].
  split; [apply Nat.ltb_lt; exact Hlen |].
  intros p Hp. rewrite forallb_forall in Hall. specialize (Hall p Hp).
  unfold sampleHasNoNaN in Hall.
  apply andb_true_iff in Hall. destruct Hall as [Hxy Hz].
  apply andb_true_iff in Hxy. destruct Hxy as [Hx Hy].
  repeat split; apply negb_true_iff; assumption.
Qed.

Opaque traceSteps.

Lemma rayFrom_checked (h : HostMath) (rot c s : float) (i : nat) :
  In rot rotationSlider -> (i < 8)%nat ->
  In c (oneUlp (fst (nth i trigTable (1, 0)%float))) ->
  In s (oneUlp (snd (nth i trigTable (1, 0)%float))) ->
  pathChecked (rayFrom 30%float 10%float rot c s) = true.
Proof.
  intros Hrot Hi Hc Hs.
  pose proof (raysChecked_true h) as Hall. unfold raysChecked in Hall.
  pose proof (proj1 (forallb_forall _ _) Hall rot Hrot) as Hcs.
  pose proof (proj1 (forallb_forall _ _) Hcs _
                (@nth_In _ i trigTable (1, 0)%float Hi)) as Hcos.
  pose proof (proj1 (forallb_forall _ _) Hcos c Hc) as Hsin.
  exact (proj1 (forallb_forall _ _) Hsin s Hs).
Qed.

(** C7: for mass 10, source radius 30 and every value of the rotation
    slider, on an engine whose cosine and sine are accurate to one unit in
    the last place at the eight ray angles: no sample of a ray after its
    start point has a radius below 2.5 (this part holds for every input),
    every ray is cut short of its 100 steps, and no coordinate of any sample
    is NaN. *)
Theorem light_rays_truncated_without_NaN (h : HostMath) (rot : float)
  (path : list (GridPoint.t float)) :
  accurateTrig h ->
  In rot rotationSlider ->
  In path (calculateLightPaths initialControls 10%float rot 8) ->
  (forall p : GridPoint.t float, In p (tl path) ->
     PrimFloat.ltb (sampleRadius p) 2.5%float = false)
  /\ (List.length path < 101)%nat
  /\ (forall p : GridPoint.t float, In p path ->
        PrimFloat.is_nan (GridPoint.x p) = false
        /\ PrimFloat.is_nan (GridPoint.y p) = false
        /\ PrimFloat.is_nan (GridPoint.z p) = false).
Proof.
  intros Hacc Hrot Hpath. split.
  - intros p Hp.
    exact (calculateLightPaths_outside initialControls 10%float rot 8 path p
             Hpath Hp).
  - unfold calculateLightPaths in Hpath.
    apply in_map_iff in Hpath. destruct Hpath as [i [Hpath Hi]].
    apply in_seq in Hi. assert (Hi8 : (i < 8)%nat) by lia.
    rewrite lightPath_rayFrom in Hpath. subst path.
    destruct (Hacc i Hi8) as [Hc Hs].
    apply pathChecked_spec.
    exact (rayFrom_checked h rot _ _ i Hrot Hi8 Hc Hs).
Qed.

Lemma light_rays_truncated_without_NaN_witness :
  accurateTrig tableHost
  /\ In 0%float rotationSlider
  /\ forall path : list (GridPoint.t float),
       In path (@calculateLightPaths float (@float_Number tableHost)
                  initialControls 10%float 0%float 8) ->
       (List.length path < 101)%nat.
Proof.
  split; [exact tableHost_accurate |].
  split; [left; reflexivity |].
  intros path Hpath.
  apply (light_rays_truncated_without_NaN tableHost 0%float path
           tableHost_accurate (or_introl eq_refl) Hpath).
Defined.

Transparent traceSteps.

End F64Laws.

(** ** Signs on binary64 *)

Module F64Sign.
Import Cases64.

Lemma signClear_not_below_zero (x : spec_float) :
  signClear x -> SFltb x (S754_zero false) = false.
Proof.
  destruct x as [s | s | | s m e]; cbn; intros Hx; subst; reflexivity.
Qed.

Lemma not_below_zero (x : float) :
  signClear (Prim2SF x) -> PrimFloat.ltb x 0 = false.
Proof.
  intros Hx. rewrite ltb_spec. apply signClear_not_below_zero. exact Hx.
Qed.

(** Rounding keeps the sign it is given. *)
Lemma binary_round_aux_sign (s : bool) (m e : Z) (l : location) :
  match binary_round_aux prec emax s m e l with
  | S754_zero s' | S754_infinity s' | S754_finite s' _ _ => s' = s
  | S754_nan => True
  end.
Proof.
  unfold binary_round_aux.
  destruct (shr_fexp prec emax m e l) as [mrs1 e1].
  destruct (shr_fexp prec emax _ e1 loc_Exact) as [mrs2 e2].
  destruct (shr_m mrs2); [reflexivity | | exact I].
  destruct (e2 <=? emax - prec)%Z; reflexivity.
Qed.

Lemma binary_round_aux_clear (m e : Z) (l : location) :
  signClear (binary_round_aux prec emax false m e l).
Proof.
  pose proof (binary_round_aux_sign false m e l) as Hs.
  destruct (binary_round_aux prec emax false m e l); cbn; auto.
Qed.

Lemma binary_normalize_clear (m e : Z) :
  (0 <= m)%Z -> signClear (binary_normalize prec emax m e false).
Proof.
  intros Hm. destruct m as [| p | p]; cbn; [exact I | | lia].
  unfold binary_round.
  destruct (shl_align p e _) as [mz ez].
  apply binary_round_aux_clear.
Qed.

Lemma SFmul_clear (x y : spec_float) :
  signClear x -> signClear y -> signClear (SFmul prec emax x y).
Proof.
  destruct x as [sx | sx | | sx mx ex], y as [sy | sy | | sy my ey];
    cbn; intros Hx Hy; subst; try exact I; try reflexivity.
  apply binary_round_aux_clear.
Qed.

Lemma SFabs_clear (x : spec_float) : signClear (SFabs x).
Proof. destruct x; cbn; auto. Qed.

Lemma SFsqrt_clear (x : spec_float) : signClear (SFsqrt prec emax x).
Proof.
  destruct x as [s | [|] | | [|] m e]; cbn; auto.
  destruct (SFsqrt_core_binary prec emax (Z.pos m) e) as [[mz ez] lz].
  apply binary_round_aux_clear.
Qed.

(** A number above zero has its sign bit clear. *)
Lemma above_zero_clear (x : spec_float) :
  SFltb (S754_zero false) x = true -> signClear x.
Proof.
  destruct x as [s | [|] | | [|] m e]; cbn; intros Hx;
    try discriminate Hx; auto.
Qed.

Lemma digits2_pos_size (m : positive) : digits2_pos m = Pos.size m.
Proof. induction m; cbn; congruence. Qed.

Lemma full_mantissa (m : positive) :
  digits2_pos m = 53%positive -> (4503599627370496 <= Z.pos m)%Z.
Proof.
  intros Hd. rewrite digits2_pos_size in Hd.
  pose proof (Pos.size_le m) as Hle. rewrite Hd in Hle.
  change (2 ^ 53)%positive with 9007199254740992%positive in Hle.
  lia.
Qed.

Lemma shifted_mantissa (m d : positive) : (Z.pos m <= Z.pos (Pos.iter xO m d))%Z.
Proof.
  apply Pos.iter_invariant with (Inv := fun y => (Z.pos m <= Z.pos y)%Z).
  - intros y Hy. lia.
  - lia.
Qed.

(** [x - 1] is not below zero when [1 < x]. *)
Lemma SFsub_one_clear (x : spec_float) :
  valid_binary x = true ->
  SFltb (S754_finite false 4503599627370496 (-52)) x = true ->
  signClear (SFsub prec emax x (S754_finite false 4503599627370496 (-52))).
Proof.
  destruct x as [s | [|] | | [|] m e]; intros Hv Hlt;
    try discriminate Hlt; try reflexivity.
  unfold SFltb, SFcompare in Hlt.
  unfold SFsub. apply binary_normalize_clear.
  cbn [cond_Zopp].
  destruct (Z.compare_spec (-52) e) as [He | He | He];
    try discriminate Hlt.
  - subst e.
    assert (Hm : (4503599627370496 < m)%positive).
    { rewrite Pos.compare_cont_spec in Hlt. cbn [Pos.switch_Eq] in Hlt.
      destruct (4503599627370496 ?= m)%positive eqn:Hc;
        try discriminate Hlt.
      apply Pos.compare_lt_iff. exact Hc. }
    rewrite Z.min_id. unfold shl_align. rewrite Z.sub_diag. cbn [fst]. lia.
  - cbn [valid_binary] in Hv. unfold bounded, canonical_mantissa in Hv.
    apply andb_true_iff in Hv. destruct Hv as [Hcan _].
    apply Z.eqb_eq in Hcan. unfold fexp, SpecFloat.emin in Hcan.
    assert (Hd : digits2_pos m = 53%positive).
    { change prec with 53%Z in Hcan. change emax with 1024%Z in Hcan. lia. }
    pose proof (full_mantissa m Hd) as Hm.
    replace (Z.min e (-52)) with (-52)%Z by lia.
    unfold shl_align. rewrite Z.sub_diag.
    destruct (-52 - e)%Z as [| d | d] eqn:Hde; try lia.
    cbn [fst].
    pose proof (shifted_mantissa m d) as Hsh. lia.
Qed.

Lemma one_spec : Prim2SF 1 = S754_finite false 4503599627370496 (-52).
Proof. reflexivity. Qed.

Lemma hundred_clear : signClear (Prim2SF 100).
Proof. reflexivity. Qed.

(** L1: [(x - 1) * 100] is not below zero when [x > 1]. *)
Lemma excess_percent_not_negative (x : float) :
  PrimFloat.ltb 1 x = true ->
  PrimFloat.ltb (PrimFloat.mul (PrimFloat.sub x 1) 100) 0 = false.
Proof.
  intros Hx. apply not_below_zero.
  rewrite mul_spec, sub_spec. apply SFmul_clear; [| exact hundred_clear].
  rewrite ltb_spec, one_spec in Hx. rewrite one_spec.
  apply SFsub_one_clear; [apply Prim2SF_valid | exact Hx].
Qed.

(** L2: [x * 100] is not below zero when [x > 0]. *)
Lemma positive_percent_not_negative (x : float) :
  PrimFloat.ltb 0 x = true ->
  PrimFloat.ltb (PrimFloat.mul x 100) 0 = false.
Proof.
  intros Hx. apply not_below_zero.
  rewrite mul_spec. apply SFmul_clear; [| exact hundred_clear].
  rewrite ltb_spec in Hx. apply above_zero_clear. exact Hx.
Qed.

(** L3: [Math.abs] never returns a number below zero. *)
Lemma abs_not_negative (x : float) :
  PrimFloat.ltb (PrimFloat.abs x) 0 = false.
Proof.
  apply not_below_zero. rewrite abs_spec. apply SFabs_clear.
Qed.

(** A number that is not NaN, not zero and not below zero is above zero. *)
Lemma above_zero (x : float) :
  PrimFloat.is_nan x = false -> PrimFloat.is_zero x = false ->
  PrimFloat.ltb x 0 = false -> PrimFloat.ltb 0 x = true.
Proof.
  unfold PrimFloat.is_nan, PrimFloat.is_zero.
  rewrite !eqb_spec, !ltb_spec.
  change (Prim2SF PrimFloat.zero) with (S754_zero false).
  change (Prim2SF 0) with (S754_zero false).
  destruct (Prim2SF x) as [s | [|] | | [|] m e]; cbn;
    intros Hnan Hzero Hlt; try discriminate; reflexivity.
Qed.

(** L4: neither does a square root, times 100. *)
Lemma sqrt_percent_not_negative (x : float) :
  PrimFloat.ltb (PrimFloat.mul (PrimFloat.sqrt x) 100) 0 = false.
Proof.
  apply not_below_zero.
  rewrite mul_spec, sqrt_spec.
  apply SFmul_clear; [apply SFsqrt_clear | exact hundred_clear].
Qed.

End F64Sign.

(** ** The fact generator *)

Module FactLaws.
Import F64 F64Text Cases64.
Local Open Scope string_scope.

Set Warnings "-inexact-float".

Lemma digitChar_not_minus (d : Z) :
  (0 <= d < 10)%Z -> (digitChar d =? "-")%char = false.
Proof.
  intros Hd.
  assert (Hcases : (d = 0 \/ d = 1 \/ d = 2 \/ d = 3 \/ d = 4 \/ d = 5
                    \/ d = 6 \/ d = 7 \/ d = 8 \/ d = 9)%Z) by lia.
  destruct Hcases
    as [-> | [-> | [-> | [-> | [-> | [-> | [-> | [-> | [-> | ->]]]]]]]]];
    reflexivity.
Qed.

Lemma digitsOf_sign (fuel : nat) :
  forall (n : Z) (acc : string),
  startsWithMinus acc = false ->
  startsWithMinus (digitsOf fuel n acc) = false.
Proof.
  induction fuel as [| fuel IH]; intros n acc Hacc.
  - exact Hacc.
  - cbn [digitsOf].
    assert (Hd : startsWithMinus (String (digitChar (n mod 10)) acc) = false).
    { cbn [startsWithMinus]. apply digitChar_not_minus.
      apply Z.mod_pos_bound. lia. }
    destruct (n <? 10)%Z; [exact Hd | apply IH; exact Hd].
Qed.

Lemma decimalOf_sign (n : Z) : startsWithMinus (decimalOf n) = false.
Proof. unfold decimalOf. apply digitsOf_sign. reflexivity. Qed.

Lemma startsWithMinus_app (a b : string) :
  startsWithMinus a = false ->
  (a = EmptyString -> startsWithMinus b = false) ->
  startsWithMinus (a ++ b) = false.
Proof.
  destruct a as [| c a]; cbn; intros Ha Hb.
  - apply Hb. reflexivity.
  - exact Ha.
Qed.

Lemma substring_sign (n : nat) (s : string) :
  startsWithMinus s = false -> startsWithMinus (substring 0 n s) = false.
Proof.
  destruct s as [| c s]; destruct n as [| n]; cbn; auto.
Qed.

Lemma zeros_sign (k : nat) (m : string) :
  startsWithMinus m = false -> startsWithMinus (zeros k ++ m) = false.
Proof. destruct k as [| k]; cbn; auto. Qed.

Lemma fixedDigits_sign (n : Z) (f : nat) :
  startsWithMinus (fixedDigits n f) = false.
Proof.
  unfold fixedDigits. cbv zeta.
  destruct (f =? 0)%nat; [apply decimalOf_sign |].
  apply startsWithMinus_app; [| intros _; reflexivity].
  apply substring_sign.
  destruct (String.length (decimalOf n) <=? f)%nat;
    [apply zeros_sign |]; apply decimalOf_sign.
Qed.

Lemma plainText_unsigned : unsignedDigits plainText.
Proof. intros x _ _. apply fixedDigits_sign. Qed.

Section Host.
Context {h : HostMath} {t : HostText}.
Hypothesis Hdigits : unsignedDigits t.

Lemma float_ToString_sign (x : float) :
  PrimFloat.ltb x 0 = false -> startsWithMinus (float_ToString x) = false.
Proof.
  intros Hx. unfold float_ToString. rewrite Hx.
  destruct (PrimFloat.is_nan x) eqn:Hnan; [reflexivity |].
  destruct (PrimFloat.is_zero x) eqn:Hzero; [reflexivity |].
  destruct (PrimFloat.is_infinity x) eqn:Hinf; [reflexivity |].
  apply Hdigits.
  - apply F64Sign.above_zero; assumption.
  - unfold PrimFloat.is_finite. rewrite Hnan, Hinf. reflexivity.
Qed.

Lemma float_toFixed_sign (x : float) (f : nat) :
  PrimFloat.ltb x 0 = false -> startsWithMinus (float_toFixed x f) = false.
Proof.
  intros Hx. unfold float_toFixed. cbv zeta. rewrite Hx.
  destruct (negb (PrimFloat.is_finite x));
    [apply float_ToString_sign; exact Hx |].
  destruct (PrimFloat.leb 1e21 x);
    [apply float_ToString_sign; exact Hx | apply fixedDigits_sign].
Qed.

End Host.

(** C9: in the two statements whose direction depends on a sign, the side
    taken when the quantity is above its threshold prints a percentage that
    is not negative, and the other side names the other observer and prints
    the absolute value of the percentage; the escape velocities that
    [calculateRelativisticEffects] returns are printed as percentages that
    are not negative.  (These four are the statements with a percentage.) *)
Theorem generateFacts_percentages_not_negative (h : HostMath) (t : HostText)
  (st : Controls float) (effects : Effects.t float) :
  unsignedDigits t ->
  let facts := generateFacts st effects in
  let relativeTimeDilation := Effects.relativeTimeDilation effects in
  let redshift := Effects.redshift effects in
  let timeDilationPercent :=
    float_toFixed (PrimFloat.mul (PrimFloat.sub relativeTimeDilation 1) 100) 4 in
  let redshiftPercent := float_toFixed (PrimFloat.mul redshift 100) 4 in
  let absolute (percent : string) :=
    float_ToString (PrimFloat.abs (host_parse percent)) in
  let escapePercent (o : Observer.t float) :=
    float_toFixed (PrimFloat.mul (Observer.escapeVelocity o) 100) 2 in
  (PrimFloat.ltb 1 relativeTimeDilation = true ->
     Facts.timeDilationFact facts
     = "Observer 2 experiences time " ++ timeDilationPercent
       ++ "% slower than Observer 1 due to being deeper in the gravitational well."
     /\ startsWithMinus timeDilationPercent = false)
  /\ (PrimFloat.ltb 1 relativeTimeDilation = false ->
       Facts.timeDilationFact facts
       = "Observer 1 experiences time " ++ absolute timeDilationPercent
         ++ "% slower than Observer 2 due to being deeper in the gravitational well."
       /\ startsWithMinus (absolute timeDilationPercent) = false)
  /\ (PrimFloat.ltb 0 redshift = true ->
       Facts.redshiftFact facts
       = "Light from Observer 2 appears redshifted by " ++ redshiftPercent
         ++ "% to Observer 1."
       /\ startsWithMinus redshiftPercent = false)
  /\ (PrimFloat.ltb 0 redshift = false ->
       Facts.redshiftFact facts
       = "Light from Observer 1 appears redshifted by "
         ++ absolute redshiftPercent ++ "% to Observer 2."
       /\ startsWithMinus (absolute redshiftPercent) = false)
  /\ Facts.escapeVelocityFact1 facts
     = "Observer 1's escape velocity is "
       ++ escapePercent (Effects.observer1 effects)
       ++ "% of the speed of light."
  /\ Facts.escapeVelocityFact2 facts
     = "Observer 2's escape velocity is "
       ++ escapePercent (Effects.observer2 effects)
       ++ "% of the speed of light."
  /\ (forall st0 : Controls float,
        effects = calculateRelativisticEffects st0 ->
        startsWithMinus (escapePercent (Effects.observer1 effects)) = false
        /\ startsWithMinus (escapePercent (Effects.observer2 effects)) = false).
Proof.
  intros Hdigits. cbv zeta.
  split; [| split; [| split; [| split; [| split; [| split]]]]].
  - intros Hrel. split.
    + unfold generateFacts. cbn [Facts.timeDilationFact].
      change (nltb (fromZ 1) (Effects.relativeTimeDilation effects))
        with (PrimFloat.ltb 1 (Effects.relativeTimeDilation effects)).
      rewrite Hrel. reflexivity.
    + apply float_toFixed_sign; [exact Hdigits |].
      apply F64Sign.excess_percent_not_negative. exact Hrel.
  - intros Hrel. split.
    + unfold generateFacts. cbn [Facts.timeDilationFact].
      change (nltb (fromZ 1) (Effects.relativeTimeDilation effects))
        with (PrimFloat.ltb 1 (Effects.relativeTimeDilation effects)).
      rewrite Hrel. reflexivity.
    + apply float_ToString_sign; [exact Hdigits |].
      apply F64Sign.abs_not_negative.
  - intros Hred. split.
    + unfold generateFacts. cbn [Facts.redshiftFact].
      change (nltb (fromZ 0) (Effects.redshift effects))
        with (PrimFloat.ltb 0 (Effects.redshift effects)).
      rewrite Hred. reflexivity.
    + apply float_toFixed_sign; [exact Hdigits |].
      apply F64Sign.positive_percent_not_negative. exact Hred.
  - intros Hred. split.
    + unfold generateFacts. cbn [Facts.redshiftFact].
      change (nltb (fromZ 0) (Effects.redshift effects))
        with (PrimFloat.ltb 0 (Effects.redshift effects)).
      rewrite Hred. reflexivity.
    + apply float_ToString_sign; [exact Hdigits |].
      apply F64Sign.abs_not_negative.
  - reflexivity.
  - reflexivity.
  - intros st0 ->. split; apply float_toFixed_sign; try exact Hdigits;
      apply F64Sign.sqrt_percent_not_negative.
Qed.

(** With the first observer deeper (radius 20 against 30) the statement
    names Observer 1 and prints an absolute value. *)
Lemma generateFacts_percentages_not_negative_witness :
  unsignedDigits plainText
  /\ forall h : HostMath,
       let effects := calculateRelativisticEffects (sliders 10 20 30 120) in
       Facts.timeDilationFact
         (@generateFacts float _ (@float_Text plainText)
            (sliders 10 20 30 120) effects)
       = "Observer 1 experiences time "
         ++ @float_ToString plainText
              (PrimFloat.abs
                 (readDecimal
                    (@float_toFixed plainText
                       (PrimFloat.mul
                          (PrimFloat.sub (Effects.relativeTimeDilation effects) 1)
                          100) 4)))
         ++ "% slower than Observer 2 due to being deeper in the gravitational well.".
Proof.
  split; [exact plainText_unsigned |].
  intros h effects.
  destruct (generateFacts_percentages_not_negative h plainText
              (sliders 10 20 30 120) effects plainText_unsigned)
    as (_ & Hflip & _).
  apply Hflip. reflexivity.
Defined.

End FactLaws.

Import IdealMore.

(** ** More laws of the formulas over the reals *)

Module IdealMoreLaws.
Import IdealLaws.
Local Open Scope R_scope.

Lemma Rltb_true (a b : R) : Rltb a b = true <-> a < b.
Proof. unfold Rltb. destruct (Rlt_dec a b); split; intros; try lra; discriminate. Qed.

Lemma Rltb_false (a b : R) : Rltb a b = false <-> b <= a.
Proof. unfold Rltb. destruct (Rlt_dec a b); split; intros; try lra; discriminate. Qed.

Lemma Rleb_true (a b : R) : Rleb a b = true <-> a <= b.
Proof. unfold Rleb. destruct (Rle_dec a b); split; intros; try lra; discriminate. Qed.

Lemma merger_separation_monotone (mass t1 t2 : R) :
  t1 <= t2 ->
  Merger.separation (mergerOrbit mass t2) <= Merger.separation (mergerOrbit mass t1).
Proof.
  intros Ht. rewrite !mergerOrbit_separation. apply decay_law_monotone; lra.
Qed.

Lemma stageRank_mergerState (s : R) :
  stageRank (mergerState s)
  = if Rltb s 7 then 3%nat else if Rltb s 10 then 2%nat
    else if Rltb s 15 then 1%nat else 0%nat.
Proof.
  unfold mergerState. cbn.
  destruct (Rltb s 7), (Rltb s 10), (Rltb s 15); reflexivity.
Qed.

Lemma mergerState_below_7 (s : R) : s < 7 -> mergerState s = "Merger"%string.
Proof.
  intros Hs. apply Rltb_true in Hs. unfold mergerState. cbn. rewrite Hs.
  reflexivity.
Qed.

(** X6: as the frame time advances the merger's label never steps back
    (early inspiral, late inspiral, merger imminent, merger), and the frame
    time is only reset while the label reads "Merger". *)
Theorem merger_label_never_steps_back (mass t1 t2 : R) :
  t1 <= t2 ->
  let s1 := Merger.separation (mergerOrbit mass t1) in
  let s2 := Merger.separation (mergerOrbit mass t2) in
  (stageRank (mergerState s1) <= stageRank (mergerState s2))%nat
  /\ (mergerNextFrameTime s2 t2 true = t2 + 1 / 10
      \/ (mergerNextFrameTime s2 t2 true = 0
          /\ mergerState s2 = "Merger"%string)).
Proof.
  intros Ht s1 s2.
  pose proof (merger_separation_monotone mass t1 t2 Ht) as Hs. fold s1 s2 in Hs.
  split.
  - rewrite !stageRank_mergerState.
    destruct (Rltb s1 7) eqn:E1, (Rltb s1 10) eqn:E2, (Rltb s1 15) eqn:E3,
             (Rltb s2 7) eqn:F1, (Rltb s2 10) eqn:F2, (Rltb s2 15) eqn:F3;
      try lia;
      repeat match goal with
             | H : Rltb _ _ = true |- _ => apply Rltb_true in H
             | H : Rltb _ _ = false |- _ => apply Rltb_false in H
             end; lra.
  - unfold mergerNextFrameTime.
    change (nleb s2 (fromZ 5)) with (Rleb s2 5).
    destruct (Rleb s2 5) eqn:H5; cbn [andb].
    + right. apply Rleb_true in H5. split; [reflexivity |].
      apply mergerState_below_7. lra.
    + left. rewrite dec_R. cbn. lra.
Qed.

Lemma merger_label_never_steps_back_witness :
  0 <= 50
  /\ (stageRank (mergerState (Merger.separation (mergerOrbit 10%R 0%R)))
      <= stageRank (mergerState (Merger.separation (mergerOrbit 10%R 50%R))))%nat.
Proof.
  assert (H : 0 <= 50) by lra.
  split; [exact H | apply (merger_label_never_steps_back 10 0 50 H)].
Defined.








End IdealMoreLaws.
(** ** Random numbers and colours of [initParticles] *)

Section RandCount.
Context {A B : Type}.
Variable f : A -> Rand B.

Lemma mapM_snd_cons (a : A) (l : list A) (k : nat) :
  snd (mapM f (a :: l) k) = snd (mapM f l (snd (f a k))).
Proof.
  cbn. unfold bind, ret.
  destruct (f a k) as [b k1]. cbn.
  destruct (mapM f l k1) as [bs k2]. reflexivity.
Qed.

(** A callback that draws [c] random numbers per element draws
    [c * length l] of them over the list. *)
Lemma mapM_draws (c : nat) :
  (forall a k, snd (f a k) = (k + c)%nat) ->
  forall (l : list A) (k : nat),
    snd (mapM f l k) = (k + c * List.length l)%nat.
Proof.
  intros Hc l. induction l as [| a l IH]; intros k.
  - cbn. lia.
  - rewrite mapM_snd_cons, IH, Hc. cbn [List.length]. lia.
Qed.

End RandCount.

Section RandMap.
Context {A B C : Type}.
Variable f : A -> Rand B.

(** What does not depend on the random numbers can be read off the input
    list. *)
Lemma mapM_map (g : B -> C) (g' : A -> C) :
  (forall a k, g (fst (f a k)) = g' a) ->
  forall (l : list A) (k : nat), map g (fst (mapM f l k)) = map g' l.
Proof.
  intros Hg l. induction l as [| a l IH]; intros k.
  - reflexivity.
  - rewrite mapM_cons. cbn [map]. rewrite Hg, IH. reflexivity.
Qed.

End RandMap.

Section InitLaws.
Context {N : Type} `{Number N}.
Variable Math_random : nat -> N.
Variable interpolateRainbow : N -> string.
Variable st : Controls N.

Lemma initParticle_draws (i k : nat) :
  snd (initParticle Math_random interpolateRainbow st i k) = (k + 4)%nat.
Proof.
  unfold initParticle, bind, random, ret. cbn. lia.
Qed.

(** X10: [initParticles] returns [particleCount] particles and calls
    [Math.random] exactly four times for each; every particle starts with
    an empty trail, and particle [i] has the colour
    [interpolateRainbow(i / particleCount)], whatever the random numbers. *)
Theorem initParticles_layout (k : nat) :
  let r := initParticles Math_random interpolateRainbow st k in
  List.length (fst r) = particleCount st
  /\ snd r = (k + 4 * particleCount st)%nat
  /\ Forall (fun p => Particle.trail p = []) (fst r)
  /\ map (@Particle.color N) (fst r)
     = map (fun i => interpolateRainbow
                       (ndiv (fromZ (Z.of_nat i))
                             (fromZ (Z.of_nat (particleCount st)))))
           (seq 0 (particleCount st)).
Proof.
  unfold initParticles. cbv zeta. repeat split.
  - rewrite mapM_length, length_seq. reflexivity.
  - rewrite (mapM_draws _ 4 (fun i k' => initParticle_draws i k')), length_seq.
    reflexivity.
  - apply mapM_Forall with (P := fun _ : nat => True).
    + intros i k' _. reflexivity.
    + apply Forall_forall. intros; exact I.
  - apply mapM_map. intros i k'. reflexivity.
Qed.

End InitLaws.

(** ** Wave points *)

Section WaveLaws.
Context {N : Type} `{Number N}.
Variable Math_random : nat -> N.

Lemma wavePair_draws (i k : nat) :
  snd (wavePair Math_random i k) = (k + 2)%nat.
Proof. unfold wavePair, bind, random, ret. cbn. lia. Qed.

Lemma wavePair_shape (i k : nat) :
  exists p1 p2 : WavePoint.t N,
    fst (wavePair Math_random i k) = [p1; p2]
    /\ pairedSources [p1; p2]
    /\ notYetUpdated p1 /\ notYetUpdated p2.
Proof.
  unfold wavePair, bind, random, ret. cbn.
  eexists. eexists. split; [reflexivity |].
  cbn. unfold notYetUpdated. cbn. tauto.
Qed.

Lemma wavePairs_layout (l : list nat) (k : nat) :
  let r := mapM (wavePair Math_random) l k in
  List.length (List.concat (fst r)) = (2 * List.length l)%nat
  /\ snd r = (k + 2 * List.length l)%nat
  /\ pairedSources (List.concat (fst r))
  /\ Forall notYetUpdated (List.concat (fst r)).
Proof.
  revert k. induction l as [| i l IH]; intros k.
  - cbn. repeat split; try lia. constructor.
  - cbv zeta. rewrite mapM_cons, mapM_snd_cons.
    destruct (IH (snd (wavePair Math_random i k))) as (IH1 & IH2 & IH3 & IH4).
    cbv zeta in IH1, IH2, IH3, IH4.
    destruct (wavePair_shape i k) as (p1 & p2 & E & Hp & U1 & U2).
    rewrite E. rewrite wavePair_draws in *.
    cbn [List.concat app List.length pairedSources]. cbn in Hp.
    split; [rewrite IH1; lia |].
    split; [rewrite IH2; lia |].
    split; [tauto |].
    constructor; [exact U1 | constructor; [exact U2 | exact IH4]].
Qed.

(** X11: [generateWavePoints] returns 200 points from 200 random numbers, in
    pairs (source 1, then source 2, on the same radius and angle), none of
    them with a displacement or a source position yet. *)
Theorem generateWavePoints_layout (k : nat) :
  let r := generateWavePoints Math_random k in
  List.length (fst r) = 200%nat
  /\ snd r = (k + 200)%nat
  /\ pairedSources (fst r)
  /\ Forall notYetUpdated (fst r).
Proof.
  unfold generateWavePoints, bind, ret.
  pose proof (wavePairs_layout (seq 0 100) k) as Hl. cbv zeta in Hl.
  destruct (mapM (wavePair Math_random) (seq 0 100) k) as [pairs k'].
  cbn [fst snd] in *. rewrite length_seq in Hl. exact Hl.
Qed.

Lemma updateWaves_paired (points : list (WavePoint.t N))
  (time amplitude frequency : N) :
  pairedSources points ->
  pairedSources (updateWaves points time amplitude frequency).
Proof.
  assert (Hn : forall (n : nat) (l : list (WavePoint.t N)),
             (List.length l <= n)%nat -> pairedSources l ->
             pairedSources (updateWaves l time amplitude frequency));
    [| apply (Hn (List.length points)); lia].
  unfold updateWaves.
  induction n as [| n IH]; intros l Hlen.
  - destruct l; [intros; exact I | cbn in Hlen; lia].
  - destruct l as [| p1 [| p2 rest]]; cbn [map pairedSources]; try tauto.
    intros (H1 & H2 & H3 & H4 & H5).
    cbn [WavePoint.source WavePoint.radius WavePoint.angle].
    rewrite H3, H4. repeat split; try assumption.
    apply IH; [cbn in Hlen; lia | exact H5].
Qed.

(** X12: the pairing survives every frame: whatever the times, amplitudes and
    frequencies of the calls, the first point is around source 1 and the
    second around source 2, which is where [renderGravitationalWaves] looks
    for the two sources. *)
Theorem wave_pairs_survive_updates (frames : list (N * N * N)) (k : nat) :
  let points := waveFrames frames (fst (generateWavePoints Math_random k)) in
  List.length points = 200%nat
  /\ pairedSources points
  /\ option_map (@WavePoint.source N) (nth_error points 0) = Some 1%Z
  /\ option_map (@WavePoint.source N) (nth_error points 1) = Some 2%Z.
Proof.
  assert (Hl : List.length (fst (generateWavePoints Math_random k)) = 200%nat
               /\ pairedSources (fst (generateWavePoints Math_random k))).
  { unfold generateWavePoints, bind, ret.
    pose proof (wavePairs_layout (seq 0 100) k) as Hl. cbv zeta in Hl.
    destruct (mapM (wavePair Math_random) (seq 0 100) k) as [pairs k'].
    cbn [fst snd] in *. rewrite length_seq in Hl. tauto. }
  destruct Hl as (Hlen & Hp). cbv zeta.
  generalize dependent (fst (generateWavePoints Math_random k)).
  unfold waveFrames.
  induction frames as [| f frames IH]; intros points Hlen Hp.
  - cbn [fold_left]. split; [exact Hlen | split; [exact Hp |]].
    destruct points as [| p1 [| p2 rest]]; try (cbn in Hlen; discriminate).
    cbn in Hp. destruct Hp as (H1 & H2 & _). cbn. rewrite H1, H2. split; reflexivity.
  - cbn [fold_left]. apply IH.
    + unfold updateWaves. rewrite length_map. exact Hlen.
    + apply updateWaves_paired. exact Hp.
Qed.

End WaveLaws.

(** ** The spacetime grid *)

Section GridLaws.
Context {N : Type} `{Number N} `{NumberMore N}.

Lemma forUpTo_Forall {A : Type} (P : A -> Prop) (limit step : N)
  (body : N -> option (list A)) :
  (forall x pushed, body x = Some pushed -> Forall P pushed) ->
  forall (fuel : nat) (x : N) (l : list A),
    forUpTo fuel x limit step body = Some l -> Forall P l.
Proof.
  intros Hbody fuel. induction fuel as [| fuel IH]; intros x l; cbn.
  - discriminate.
  - destruct (nleb x limit); [| intros E; injection E as <-; constructor].
    destruct (body x) as [pushed |] eqn:Eb; [| discriminate].
    destruct (forUpTo fuel (nadd x step) limit step body) as [rest |] eqn:Er;
      [| discriminate].
    intros E; injection E as <-.
    apply Forall_app. split; [exact (Hbody _ _ Eb) | exact (IH _ _ Er)].
Qed.

Lemma gridCell_own (mass rotation x y : N) :
  Forall (ownCell mass rotation) (gridCell mass rotation x y).
Proof.
  unfold ownCell, gridCell.
  destruct (nltb (Math_sqrt (nadd (nmul x x) (nmul y y))) (fromZ 2)) eqn:E.
  - constructor.
  - constructor; [| constructor]. cbn [GridPoint.x GridPoint.y].
    rewrite E. reflexivity.
Qed.

Lemma calculateSpacetimeGrid_cells (mass rotation : N)
  (grid : list (GridPoint.t N)) :
  calculateSpacetimeGrid mass rotation = Some grid ->
  Forall (ownCell mass rotation) grid.
Proof.
  unfold calculateSpacetimeGrid.
  apply forUpTo_Forall. intros x pushed.
  apply forUpTo_Forall. intros y cell E. injection E as <-.
  apply gridCell_own.
Qed.

Lemma ownCell_radius (mass rotation : N) (p : GridPoint.t N) :
  ownCell mass rotation p -> nltb (sampleRadius p) (fromZ 2) = false.
Proof.
  unfold ownCell, gridCell, sampleRadius.
  destruct (nltb _ (fromZ 2)); [discriminate | reflexivity].
Qed.

End GridLaws.

Module GridIdeal.
Import IdealLaws.
Local Open Scope R_scope.

(** Over the reals a loop with a positive step ends: after [n] steps the
    counter is beyond the limit. *)
Lemma forUpTo_ends {A : Type} (limit step : R) (body : R -> option (list A)) :
  0 < step ->
  (forall x, exists pushed, body x = Some pushed) ->
  forall (n fuel : nat) (x : R),
    (n < fuel)%nat -> limit < x + INR n * step ->
    exists l, forUpTo fuel x limit step body = Some l.
Proof.
  intros Hstep Hbody n. induction n as [| n IH]; intros fuel x Hf Hx.
  - destruct fuel as [| fuel]; [lia |]. cbn [forUpTo].
    change (nleb x limit) with (Rleb x limit).
    replace (Rleb x limit) with false; [eexists; reflexivity |].
    symmetry. unfold Rleb. destruct (Rle_dec x limit); [| reflexivity].
    cbn in Hx. lra.
  - destruct fuel as [| fuel]; [lia |]. cbn [forUpTo].
    destruct (nleb x limit); [| eexists; reflexivity].
    destruct (Hbody x) as [pushed ->].
    destruct (IH fuel (x + step)) as [rest Hrest]; [lia | |].
    + rewrite S_INR in Hx. lra.
    + change (nadd x step) with (x + step). rewrite Hrest.
      eexists; reflexivity.
Qed.

Lemma calculateSpacetimeGrid_returns (mass rotation : R) :
  exists grid, calculateSpacetimeGrid mass rotation = Some grid.
Proof.
  unfold calculateSpacetimeGrid, gridFuel.
  apply forUpTo_ends with (n := 21%nat); [cbn; lra | | lia | cbn; lra].
  intros x.
  apply forUpTo_ends with (n := 21%nat); [cbn; lra | | lia | cbn; lra].
  intros y. eexists; reflexivity.
Qed.

Lemma forUpTo_first {A : Type} (fuel : nat) (x limit step : R)
  (body : R -> option (list A)) (pushed l : list A) :
  x <= limit -> body x = Some pushed ->
  forUpTo (S fuel) x limit step body = Some l ->
  exists rest, l = pushed ++ rest.
Proof.
  intros Hx Hb. cbn [forUpTo].
  change (nleb x limit) with (Rleb x limit).
  replace (Rleb x limit) with true
    by (symmetry; apply IdealMoreLaws.Rleb_true; exact Hx).
  rewrite Hb.
  destruct (forUpTo fuel (nadd x step) limit step body) as [rest |];
    [| discriminate].
  intros E; injection E as <-. exists rest. reflexivity.
Qed.

Lemma sqrt_at_least_2 (a : R) : 4 <= a -> 2 <= sqrt a.
Proof.
  intros Ha. rewrite <- (sqrt_square 2) by lra.
  apply sqrt_le_1; lra.
Qed.

(** The height [calculateSpacetimeGrid] gives the point at radius [r >= 2]
    when [Math.sin(theta)] is [s]. *)
Lemma height_bounds (mass rotation r s : R) :
  0 < mass -> rotation <= 1 -> 2 <= r -> -1 <= s <= 1 ->
  let z := - mass / r in
  let z' := z + rotation * mass * s / (r * r) * (5 / 10) in
  - mass / 2 <= z < 0
  /\ (0 < rotation -> - (5 / 8) * mass <= z' < 0).
Proof.
  intros Hm Hrot Hr Hs z z'.
  assert (Hi : 0 < / r <= / 2).
  { split; [apply Rinv_0_lt_compat; lra | apply Rinv_le_contravar; lra]. }
  set (ir := / r) in *.
  assert (Hz : z = - (mass * ir)) by (unfold z, ir, Rdiv; ring).
  assert (Hmi : 0 < mass * ir <= mass / 2).
  { split; [apply Rmult_lt_0_compat; lra |]. nra. }
  split; [rewrite Hz; lra |].
  intros Hpos.
  assert (Hz' : z' = mass * ir * (- 1 + rotation * s * ir / 2)).
  { unfold z', z, ir. field. lra. }
  assert (He : - (1 / 4) <= rotation * s * ir / 2 <= 1 / 4).
  { assert (Hrs : -1 <= rotation * s <= 1) by nra.
    assert (Hrsi : - (1 / 2) <= rotation * s * ir <= 1 / 2) by nra.
    lra. }
  rewrite Hz'. split; nra.
Qed.

(** X15: over the reals [calculateSpacetimeGrid] returns a grid that starts
    at the corner (-30, -30); for a positive mass and a rotation of at most
    1 every point is at radius 2 or more and lies below the plane, no
    deeper than 5/8 of the mass (half the mass without rotation). *)
Theorem grid_lies_below_the_plane (mass rotation : R) :
  0 < mass -> rotation <= 1 ->
  exists (corner : GridPoint.t R) (rest : list (GridPoint.t R)),
    calculateSpacetimeGrid mass rotation = Some (corner :: rest)
    /\ GridPoint.x corner = -30 /\ GridPoint.y corner = -30
    /\ Forall (fun p =>
                 2 <= sampleRadius p
                 /\ - (5 / 8) * mass <= GridPoint.z p < 0
                 /\ (rotation <= 0 -> - mass / 2 <= GridPoint.z p))
              (corner :: rest).
Proof.
  intros Hm Hrot.
  destruct (calculateSpacetimeGrid_returns mass rotation) as [grid Hgrid].
  pose proof (calculateSpacetimeGrid_cells mass rotation grid Hgrid) as Hcells.
  assert (Hfirst : exists corner rest,
             grid = corner :: rest
             /\ GridPoint.x corner = -30 /\ GridPoint.y corner = -30).
  { unfold calculateSpacetimeGrid, gridFuel in Hgrid.
    set (inner := fun x : R => forUpTo 100 _ _ _ _) in Hgrid.
    destruct (forUpTo_ends (A := GridPoint.t R) (60 / 2) (60 / 20)
                (fun y => Some (gridCell mass rotation (- 60 / 2) y))
                ltac:(lra) ltac:(intros; eexists; reflexivity)
                21%nat 100%nat (- 60 / 2) ltac:(lia) ltac:(cbn; lra))
      as [row Hrow].
    assert (Hle : - 60 / 2 <= 60 / 2) by lra.
    destruct (forUpTo_first 99 (- 60 / 2) (60 / 2) (60 / 20)
                (fun y => Some (gridCell mass rotation (- 60 / 2) y))
                (gridCell mass rotation (- 60 / 2) (- 60 / 2)) row
                Hle eq_refl Hrow) as [rowRest ->].
    destruct (forUpTo_first 99 (- 60 / 2) (60 / 2) (60 / 20) inner _ grid
                Hle Hrow Hgrid) as [gridRest ->].
    unfold gridCell.
    replace (nltb _ (fromZ 2)) with false.
    - cbn [app]. eexists. eexists. split; [reflexivity |].
      cbn. split; lra.
    - symmetry. apply IdealMoreLaws.Rltb_false. apply sqrt_at_least_2.
      cbn. lra. }
  destruct Hfirst as (corner & rest & -> & Hx & Hy).
  exists corner, rest. repeat split; try assumption.
  eapply Forall_impl; [| exact Hcells].
  intros p Hp.
  pose proof (ownCell_radius mass rotation p Hp) as Hrad.
  apply IdealMoreLaws.Rltb_false in Hrad.
  unfold ownCell, gridCell in Hp. fold (sampleRadius p) in Hp.
  replace (nltb (sampleRadius p) (fromZ 2)) with false in Hp
    by (symmetry; apply IdealMoreLaws.Rltb_false; exact Hrad).
  injection Hp as Hp. apply (f_equal (@GridPoint.z R)) in Hp.
  cbn [GridPoint.z] in Hp.
  pose proof (SIN_bound (Math_atan2 (GridPoint.y p) (GridPoint.x p))) as Hs.
  destruct (height_bounds mass rotation (sampleRadius p) _ Hm Hrot Hrad Hs)
    as (Hz & Hz').
  change (nltb (fromZ 0) rotation) with (Rltb 0 rotation) in Hp.
  destruct (Rltb 0 rotation) eqn:Erot.
  - apply IdealMoreLaws.Rltb_true in Erot. specialize (Hz' Erot).
    unfold sampleRadius in *. cbn in Hp, Hz', Hrad. rewrite <- Hp.
    split; [exact Hrad | split; [exact Hz' | intros; lra]].
  - apply IdealMoreLaws.Rltb_false in Erot.
    unfold sampleRadius in *. cbn in Hp, Hz, Hrad. rewrite <- Hp.
    split; [exact Hrad | split; [lra | intros; lra]].
Qed.

Lemma grid_lies_below_the_plane_witness :
  0 < 10 /\ 0 <= 1
  /\ exists (corner : GridPoint.t R) (rest : list (GridPoint.t R)),
       calculateSpacetimeGrid 10 0 = Some (corner :: rest)
       /\ GridPoint.x corner = -30.
Proof.
  assert (H0 : 0 < 10) by lra. assert (H1 : 0 <= 1) by lra.
  split; [exact H0 | split; [exact H1 |]].
  destruct (grid_lies_below_the_plane 10 0 H0 H1)
    as (corner & rest & Hg & Hx & _).
  exists corner, rest. split; assumption.
Defined.

End GridIdeal.

(** ** Shape of the light paths *)

Section TracerShape.
Context {N : Type} `{Number N}.

Lemma traceSteps_length (mass rotation : N) (steps : nat) :
  forall x y vx vy : N,
    (List.length (traceSteps mass rotation steps x y vx vy) <= steps)%nat.
Proof.
  induction steps as [| steps IH]; intros x y vx vy; cbn [traceSteps].
  - cbn. lia.
  - cbv zeta. destruct (nltb _ (dec 25 1)).
    + cbn. lia.
    + cbn [List.length]. apply le_n_S. apply IH.
Qed.

Lemma cons_length_bound {A : Type} (a : A) (l : list A) (n : nat) :
  (List.length l <= n)%nat -> (1 <= List.length (a :: l) <= S n)%nat.
Proof. cbn. lia. Qed.

(** X16: [calculateLightPaths] returns [numPaths] paths; each holds its start
    point and at most 100 traced samples. *)
Theorem calculateLightPaths_shape (st : Controls N) (mass rotation : N)
  (numPaths : nat) :
  List.length (calculateLightPaths st mass rotation numPaths) = numPaths
  /\ Forall (fun path => (1 <= List.length path <= 101)%nat)
            (calculateLightPaths st mass rotation numPaths).
Proof.
  unfold calculateLightPaths. split.
  - rewrite length_map, length_seq. reflexivity.
  - apply Forall_map, Forall_forall. intros i _.
    rewrite lightPath_rayFrom. unfold rayFrom.
    apply cons_length_bound, traceSteps_length.
Qed.

End TracerShape.

Module Grid64.
Import F64 F64More.

Lemma calculateSpacetimeGrid_checked (h : HostMath) (a : HostAtan2)
  (mass rotation : float) :
  option_map (fun grid => (List.length grid, forallb onLattice grid))
             (calculateSpacetimeGrid mass rotation)
  = Some (440%nat, true).
Proof. vm_compute. reflexivity. Qed.

(** X17: on binary64, for every mass and rotation (NaN and the infinities
    included), [calculateSpacetimeGrid] returns 440 points: the 21 x 21
    lattice -30, -27, ..., 30, whose coordinates are exact, without the
    centre; no point is at a radius below 2. *)
Theorem grid_has_440_lattice_points (h : HostMath) (a : HostAtan2)
  (mass rotation : float) :
  exists grid : list (GridPoint.t float),
    calculateSpacetimeGrid mass rotation = Some grid
    /\ List.length grid = 440%nat
    /\ Forall (fun p => onLattice p = true
                        /\ PrimFloat.ltb (sampleRadius p) 2 = false) grid.
Proof.
  pose proof (calculateSpacetimeGrid_checked h a mass rotation) as Hc.
  destruct (calculateSpacetimeGrid mass rotation) as [grid |] eqn:Hgrid;
    [| discriminate].
  cbn [option_map] in Hc. injection Hc as Hlen Hlat.
  exists grid. split; [reflexivity | split; [exact Hlen |]].
  pose proof (calculateSpacetimeGrid_cells mass rotation grid Hgrid) as Hcells.
  rewrite forallb_forall in Hlat.
  rewrite Forall_forall in Hcells |- *. intros p Hp. split.
  - apply Hlat. exact Hp.
  - exact (ownCell_radius mass rotation p (Hcells p Hp)).
Qed.

End Grid64.

(** ** The fact generator at NaN *)

Module NaNFacts.
Import F64 F64Text Cases64.
Local Open Scope string_scope.

Lemma is_nan_eq (x : float) : PrimFloat.is_nan x = true -> x = PrimFloat.nan.
Proof.
  unfold PrimFloat.is_nan. rewrite eqb_spec. intros Hx.
  apply Prim2SF_inj. change (Prim2SF PrimFloat.nan) with S754_nan.
  destruct (Prim2SF x) as [s | s | | s m e]; try reflexivity; exfalso;
    revert Hx; unfold SFeqb, SFcompare.
  - discriminate.
  - destruct s; discriminate.
  - rewrite Z.compare_refl, Pos.compare_refl. destruct s; discriminate.
Qed.

Section Host.
Context {h : HostMath} {t : HostText}.

Lemma nan_percent :
  toFixed (nmul (nsub PrimFloat.nan (fromZ 1)) (fromZ 100)) 4 = "NaN".
Proof. lazy. reflexivity. Qed.

Lemma nan_difference :
  formatTimeDifference
    (nmul (fromZ 31536000) (Math_abs (nsub PrimFloat.nan (fromZ 1))))
  = EmptyString.
Proof. lazy. reflexivity. Qed.

(** X18: when the relative time dilation is NaN (an observer at or inside
    the horizon radius), the first fact reads "NaN%" and the second one
    names no duration at all. *)
Theorem facts_of_a_NaN_ratio (st : Controls float) (effects : Effects.t float) :
  PrimFloat.is_nan (Effects.relativeTimeDilation effects) = true ->
  PrimFloat.is_nan (host_parse "NaN") = true ->
  Facts.timeDilationFact (generateFacts st effects)
  = "Observer 1 experiences time NaN% slower than Observer 2 due to being deeper in the gravitational well."
  /\ Facts.clockFact (generateFacts st effects)
     = "After 1 year, their clocks would differ by approximately .".
Proof.
  intros Hrel Hparse. apply is_nan_eq in Hrel. apply is_nan_eq in Hparse.
  destruct effects as [o1 o2 rel ltt rs sc1 sc2 dist].
  cbn [Effects.relativeTimeDilation] in Hrel. subst rel.
  unfold generateFacts.
  cbn [Facts.timeDilationFact Facts.clockFact Effects.relativeTimeDilation].
  rewrite nan_percent, nan_difference.
  cbn [ToNumber float_Text]. rewrite Hparse.
  split; lazy; reflexivity.
Qed.

End Host.

Lemma facts_of_a_NaN_ratio_witness :
  PrimFloat.is_nan
    (Effects.relativeTimeDilation
       (calculateRelativisticEffects (H := float_Number (h := tableHost))
          deepControls)) = true
  /\ PrimFloat.is_nan (host_parse (HostText := plainText) "NaN") = true
  /\ Facts.clockFact
       (generateFacts (H := float_Number (h := tableHost))
          (H0 := float_Text (t := plainText)) deepControls
          (calculateRelativisticEffects (H := float_Number (h := tableHost))
             deepControls))
     = "After 1 year, their clocks would differ by approximately .".
Proof.
  assert (H1 : PrimFloat.is_nan
                 (Effects.relativeTimeDilation
                    (calculateRelativisticEffects
                       (H := float_Number (h := tableHost)) deepControls))
               = true) by (vm_compute; reflexivity).
  assert (H2 : PrimFloat.is_nan (host_parse (HostText := plainText) "NaN")
               = true) by (vm_compute; reflexivity).
  split; [exact H1 | split; [exact H2 |]].
  apply (facts_of_a_NaN_ratio (h := tableHost) (t := plainText)
           deepControls _ H1 H2).
Defined.

End NaNFacts.

(** ** The observer view and the geodesics of the singularity view *)

Module Views64.
Import F64 F64More Cases64.

Set Warnings "-inexact-float".

(** X23: on binary64 the 'penrose' geodesic has 11 points and the 'kerr'
    geodesic has only 20: twenty additions of 0.05 give
    1.0000000000000002, so the sample at [t = 1] that closes the
    revolution is never taken, whatever the view's size and the engine's
    cosine and sine. *)
Theorem geodesics_on_binary64 (h : HostMath) (a : HostAtan2)
  (centerX centerY maxRadius : float) (i : nat) :
  option_map (@List.length _) (penroseGeodesic centerX centerY maxRadius i)
  = Some 11%nat
  /\ option_map (@List.length _) (kerrGeodesic centerX centerY maxRadius i)
     = Some 20%nat.
Proof.
  split.
  - unfold penroseGeodesic.
    generalize (nadd centerX
                  (nmul (nmul (Math_cos (nmul (nmul (ndiv (fromZ (Z.of_nat i))
                     (fromZ 8)) (fromZ 2)) Math_PI)) maxRadius) (dec 7 1))).
    generalize (nadd centerY
                  (nmul (nmul (Math_sin (nmul (nmul (ndiv (fromZ (Z.of_nat i))
                     (fromZ 8)) (fromZ 2)) Math_PI)) maxRadius) (dec 7 1))).
    intros startY startX. vm_compute. reflexivity.
  - unfold kerrGeodesic.
    generalize (nmul (nmul (ndiv (fromZ (Z.of_nat i)) (fromZ 8)) (fromZ 2))
                     Math_PI).
    intros angle. vm_compute. reflexivity.
Qed.

Lemma nan_spec (x : float) : Prim2SF x = S754_nan -> PrimFloat.is_nan x = true.
Proof.
  intros Hx. unfold PrimFloat.is_nan. rewrite eqb_spec, Hx. reflexivity.
Qed.

Lemma zero_spec (x : float) :
  PrimFloat.eqb x 0 = true -> exists s, Prim2SF x = S754_zero s.
Proof.
  rewrite eqb_spec. change (Prim2SF 0) with (S754_zero false).
  destruct (Prim2SF x) as [s | s | | s m e]; cbn; try discriminate.
  - intros _. exists s. reflexivity.
  - destruct s; discriminate.
  - destruct s; discriminate.
Qed.

(** [d * (1 - m / (d * 10))] for a zero [d]: whatever [m] is, the quotient
    is infinite or NaN and the product is NaN. *)
Lemma zero_distance_is_NaN (d m : float) :
  PrimFloat.eqb d 0 = true ->
  Prim2SF (PrimFloat.mul d (PrimFloat.sub 1 (PrimFloat.div m (PrimFloat.mul d 10))))
  = S754_nan.
Proof.
  intros Hd. destruct (zero_spec d Hd) as [s Hs].
  rewrite mul_spec, sub_spec, div_spec, mul_spec, Hs.
  destruct (Prim2SF 10) as [s10 | s10 | | s10 m10 e10] eqn:E10;
    try (vm_compute in E10; discriminate).
  destruct (Prim2SF 1) as [s1 | s1 | | s1 m1 e1] eqn:E1;
    try (vm_compute in E1; discriminate).
  destruct (Prim2SF m) as [sm | sm | | sm mm em];
    destruct s, s10; try destruct sm; reflexivity.
Qed.

Lemma NaN_times (x c : float) :
  Prim2SF x = S754_nan -> PrimFloat.is_nan (PrimFloat.mul x c) = true.
Proof.
  intros Hx. apply nan_spec. rewrite mul_spec, Hx. reflexivity.
Qed.

(** X24: on binary64, when the distance the observer view computes between
    the two observers is zero (they coincide), the apparent position of the
    other observer is NaN in both coordinates, for every mass and engine. *)
Theorem coincident_observers_are_drawn_at_NaN (h : HostMath) (a : HostAtan2)
  (st : Controls float) (activeObserver : Z) :
  PrimFloat.eqb (ObserverView.distance (observerView st activeObserver)) 0
  = true ->
  PrimFloat.is_nan (ObserverView.apparentX (observerView st activeObserver))
  = true
  /\ PrimFloat.is_nan (ObserverView.apparentY (observerView st activeObserver))
     = true.
Proof.
  intros Hd.
  pose proof (zero_distance_is_NaN _ (mass st) Hd) as Hv.
  split; apply NaN_times; exact Hv.
Qed.

Lemma coincident_observers_are_drawn_at_NaN_witness :
  PrimFloat.eqb
    (ObserverView.distance
       (observerView (H := float_Number (h := tableHost))
          (H0 := float_More (a := originAtan2)) (sliders 10 30 30 0) 1)) 0
  = true
  /\ PrimFloat.is_nan
       (ObserverView.apparentX
          (observerView (H := float_Number (h := tableHost))
             (H0 := float_More (a := originAtan2)) (sliders 10 30 30 0) 1))
     = true.
Proof.
  assert (H : PrimFloat.eqb
                (ObserverView.distance
                   (observerView (H := float_Number (h := tableHost))
                      (H0 := float_More (a := originAtan2))
                      (sliders 10 30 30 0) 1)) 0 = true)
    by (vm_compute; reflexivity).
  split; [exact H |].
  apply (coincident_observers_are_drawn_at_NaN tableHost originAtan2
           (sliders 10 30 30 0) 1 H).
Defined.

End Views64.

(** ** Random numbers drawn by a frame *)

Section RandomDraws.
Context {N : Type} `{Number N}.
Variable Math_random : nat -> N.
Variable st : Controls N.

Lemma updateParticle_draws (dt centralMass rotation : N)
  (p : Particle.t N) (k : nat) :
  snd (updateParticle Math_random st dt centralMass rotation p k)
  = (k + if insideHorizon centralMass p then 3 else 0)%nat.
Proof.
  unfold insideHorizon.
  destruct (nltb _ (nmul (nmul (fromZ 2) centralMass) SCALE_FACTOR)) eqn:Hr.
  - destruct (updateParticle_respawn Math_random st dt centralMass rotation
                p k Hr) as (_ & _ & _ & Hk).
    rewrite Hk. lia.
  - destruct (updateParticle_orbit Math_random st dt centralMass rotation
                p k Hr) as (_ & _ & _ & Hk).
    rewrite Hk. lia.
Qed.

(** X25: a frame of [updateParticles] calls [Math.random] exactly three
    times for each particle inside the event horizon and never otherwise:
    with every particle outside the horizon the frame is deterministic. *)
Theorem updateParticles_random_draws (dt centralMass rotation : N)
  (particles : list (Particle.t N)) (k : nat) :
  snd (updateParticles Math_random st particles dt centralMass rotation k)
  = (k + 3 * List.length (filter (insideHorizon centralMass) particles))%nat.
Proof.
  unfold updateParticles. revert k.
  induction particles as [| p particles IH]; intros k.
  - cbn. lia.
  - rewrite mapM_snd_cons, IH, updateParticle_draws. cbn [filter].
    destruct (insideHorizon centralMass p); cbn [List.length]; lia.
Qed.

End RandomDraws.

(** ** Rounding on binary64 *)

Module F64Rounding.
Import F64 Cases64 Rounding64.

Set Warnings "-inexact-float".

Section Host.
Context {h : HostMath}.

Lemma contraction_table :
  forallb (fun m => forallb (contractionChecked m) (Zrange 5 50))
          (Zrange 1 50) = true.
Proof. vm_compute. reflexivity. Qed.

Lemma contractionChecked_sliders (m r : Z) :
  (1 <= m <= 50)%Z -> (5 <= r <= 50)%Z -> contractionChecked m r = true.
Proof.
  intros Hm Hr.
  pose proof contraction_table as Htab.
  rewrite forallb_forall in Htab.
  specialize (Htab m (F64Laws.Zrange_In _ _ _ Hm)).
  rewrite forallb_forall in Htab.
  exact (Htab r (F64Laws.Zrange_In _ _ _ Hr)).
Qed.

Lemma deeper_table :
  forallb (fun m =>
    forallb (fun r1 => forallb (deeperChecked m r1) (Zrange 5 45))
            (Zrange 10 50))
          (Zrange 1 50) = true.
Proof. vm_compute. reflexivity. Qed.

Lemma deeperChecked_sliders (m r1 r2 : Z) :
  (1 <= m <= 50)%Z -> (10 <= r1 <= 50)%Z -> (5 <= r2 <= 45)%Z ->
  deeperChecked m r1 r2 = true.
Proof.
  intros Hm H1 H2.
  pose proof deeper_table as Htab.
  rewrite forallb_forall in Htab.
  specialize (Htab m (F64Laws.Zrange_In _ _ _ Hm)).
  rewrite forallb_forall in Htab.
  specialize (Htab r1 (F64Laws.Zrange_In _ _ _ H1)).
  rewrite forallb_forall in Htab.
  exact (Htab r2 (F64Laws.Zrange_In _ _ _ H2)).
Qed.

Lemma redshiftProductChecked_sliders (m r1 r2 : Z) :
  (1 <= m <= 50)%Z -> (10 <= r1 <= 50)%Z -> (5 <= r2 <= 45)%Z ->
  redshiftProductChecked m r1 r2 = true.
Proof.
  intros Hm H1 H2.
  destruct (F64Laws.redshift_swap_binary64 h) as [Htab _].
  rewrite forallb_forall in Htab.
  specialize (Htab m (F64Laws.Zrange_In _ _ _ Hm)).
  rewrite forallb_forall in Htab.
  specialize (Htab r1 (F64Laws.Zrange_In _ _ _ H1)).
  rewrite forallb_forall in Htab.
  exact (Htab r2 (F64Laws.Zrange_In _ _ _ H2)).
Qed.

Lemma kerr_table :
  forallb (fun m => forallb (kerrChecked m) (Zrange 0 10)) (Zrange 1 50) = true.
Proof. vm_compute. reflexivity. Qed.

Lemma kerrChecked_sliders (m k : Z) :
  (1 <= m <= 50)%Z -> (0 <= k <= 10)%Z -> kerrChecked m k = true.
Proof.
  intros Hm Hk.
  pose proof kerr_table as Htab.
  rewrite forallb_forall in Htab.
  specialize (Htab m (F64Laws.Zrange_In _ _ _ Hm)).
  rewrite forallb_forall in Htab.
  exact (Htab k (F64Laws.Zrange_In _ _ _ Hk)).
Qed.

End Host.

(** *** The redshift law under rounding *)

(** C3, as stated, fails on binary64: with mass 10 and the observers at
    radii 30 and 31, both inside the domain, the product of [1 + redshift]
    for the configuration and for the one with the observers exchanged is
    one unit in the last place below 1. *)
Lemma redshift_swap_not_exact :
  sliderInDomain 10 30 = true
  /\ sliderInDomain 10 31 = true
  /\ (forall h : HostMath,
        PrimFloat.mul
          (PrimFloat.add 1
             (Effects.redshift
                (calculateRelativisticEffects (sliders 10 30 31 120))))
          (PrimFloat.add 1
             (Effects.redshift
                (calculateRelativisticEffects (sliders 10 31 30 120))))
        = 0x1.fffffffffffffp-1%float).
Proof.
  split; [reflexivity | split; [reflexivity |]].
  intros h. vm_compute. reflexivity.
Qed.

(** C3, amended: in the valid domain, swapping the two observers inverts
    the redshift up to rounding: for every mass and pair of radii the
    sliders supply, [(1 + redshift) * (1 + redshift')] for the
    configuration and for the one with the observers exchanged lies
    between [1 - 2^-51] and [1 + 2^-50]. *)
Theorem redshift_swap_inverse_up_to_rounding (h : HostMath)
  (m r1 r2 a a' : Z) :
  (1 <= m <= 50)%Z -> (10 <= r1 <= 50)%Z -> (5 <= r2 <= 45)%Z ->
  sliderInDomain m r1 = true -> sliderInDomain m r2 = true ->
  let e := calculateRelativisticEffects (sliders m r1 r2 a) in
  let e' := calculateRelativisticEffects (sliders m r2 r1 a') in
  let product :=
    PrimFloat.mul (PrimFloat.add 1 (Effects.redshift e))
                  (PrimFloat.add 1 (Effects.redshift e')) in
  PrimFloat.leb 0x1.ffffffffffffcp-1 product = true
  /\ PrimFloat.leb product 0x1.0000000000004p+0 = true.
Proof.
  intros Hm H1 H2 D1 D2. cbv zeta.
  pose proof (redshiftProductChecked_sliders m r1 r2 Hm H1 H2) as Hc.
  unfold redshiftProductChecked in Hc. rewrite D1, D2 in Hc.
  cbn [andb implb] in Hc. apply andb_true_iff in Hc. exact Hc.
Qed.

Lemma redshift_swap_inverse_up_to_rounding_witness :
  (1 <= 10 <= 50)%Z /\ (10 <= 30 <= 50)%Z /\ (5 <= 31 <= 45)%Z
  /\ sliderInDomain 10 30 = true /\ sliderInDomain 10 31 = true
  /\ forall h : HostMath,
       PrimFloat.leb 0x1.ffffffffffffcp-1
         (PrimFloat.mul
            (PrimFloat.add 1
               (Effects.redshift
                  (calculateRelativisticEffects (sliders 10 30 31 120))))
            (PrimFloat.add 1
               (Effects.redshift
                  (calculateRelativisticEffects (sliders 10 31 30 120)))))
       = true.
Proof.
  split; [lia | split; [lia | split; [lia |]]].
  split; [reflexivity | split; [reflexivity |]].
  intros h.
  apply (redshift_swap_inverse_up_to_rounding h 10 30 31 120 120
           ltac:(lia) ltac:(lia) ltac:(lia) eq_refl eq_refl).
Defined.

(** *** Contraction, escape velocity and the deeper observer *)

(** X1: on binary64, for every mass and observer radius the sliders supply
    inside the domain, the space contraction is in (0, 1], the escape
    velocity is in [0, 1) (below the speed of light), and
    [spaceContraction * timeDilation] and
    [escapeVelocity^2 + spaceContraction^2] are 1 to within [2^-50]. *)
Theorem contraction_and_escape_velocity_in_domain (h : HostMath)
  (m r1 r2 a : Z) :
  (1 <= m <= 50)%Z -> (10 <= r1 <= 50)%Z -> (5 <= r2 <= 45)%Z ->
  let e := calculateRelativisticEffects (sliders m r1 r2 a) in
  let good (o : Observer.t float) (contraction : float) :=
    PrimFloat.ltb 0 contraction = true
    /\ PrimFloat.leb contraction 1 = true
    /\ PrimFloat.leb 0 (Observer.escapeVelocity o) = true
    /\ PrimFloat.ltb (Observer.escapeVelocity o) 1 = true
    /\ nearOne (PrimFloat.mul contraction (Observer.timeDilation o)) = true
    /\ nearOne
         (PrimFloat.add
            (PrimFloat.mul (Observer.escapeVelocity o)
                           (Observer.escapeVelocity o))
            (PrimFloat.mul contraction contraction)) = true in
  (sliderInDomain m r1 = true ->
   good (Effects.observer1 e) (Effects.spaceContraction1 e))
  /\ (sliderInDomain m r2 = true ->
      good (Effects.observer2 e) (Effects.spaceContraction2 e)).
Proof.
  intros Hm H1 H2. cbv zeta.
  assert (Hc1 : contractionChecked m r1 = true)
    by (apply contractionChecked_sliders; lia).
  assert (Hc2 : contractionChecked m r2 = true)
    by (apply contractionChecked_sliders; lia).
  unfold contractionChecked in Hc1, Hc2.
  split; intros Hd.
  - rewrite Hd in Hc1. cbn [implb] in Hc1.
    repeat (apply andb_true_iff in Hc1; destruct Hc1 as [Hc1 ?]).
    repeat split; assumption.
  - rewrite Hd in Hc2. cbn [implb] in Hc2.
    repeat (apply andb_true_iff in Hc2; destruct Hc2 as [Hc2 ?]).
    repeat split; assumption.
Qed.

Lemma contraction_and_escape_velocity_in_domain_witness :
  (1 <= 10 <= 50)%Z /\ (10 <= 30 <= 50)%Z /\ (5 <= 20 <= 45)%Z
  /\ sliderInDomain 10 20 = true
  /\ forall h : HostMath,
       PrimFloat.ltb
         (Observer.escapeVelocity
            (Effects.observer2 (calculateRelativisticEffects initialControls)))
         1 = true.
Proof.
  split; [lia | split; [lia | split; [lia | split; [reflexivity |]]]].
  intros h.
  destruct (contraction_and_escape_velocity_in_domain h 10 30 20 120
              ltac:(lia) ltac:(lia) ltac:(lia)) as (_ & H2).
  destruct (H2 eq_refl) as (_ & _ & _ & Hv & _). exact Hv.
Defined.

(** X2: on binary64, for every mass and pair of radii the sliders supply
    inside the domain, [relativeTimeDilation * (1 + redshift)] is 1 to
    within [2^-50]; the relative time dilation is above 1 (the fact
    generator names observer 2 as the slower one) exactly when observer 2
    is nearer to the mass, and the redshift is above 0 exactly when
    observer 1 is the nearer one. *)
Theorem deeper_observer_is_slower_on_binary64 (h : HostMath)
  (m r1 r2 a : Z) :
  (1 <= m <= 50)%Z -> (10 <= r1 <= 50)%Z -> (5 <= r2 <= 45)%Z ->
  sliderInDomain m r1 = true -> sliderInDomain m r2 = true ->
  let e := calculateRelativisticEffects (sliders m r1 r2 a) in
  nearOne (PrimFloat.mul (Effects.relativeTimeDilation e)
                         (PrimFloat.add 1 (Effects.redshift e))) = true
  /\ (PrimFloat.ltb 1 (Effects.relativeTimeDilation e) = true <-> (r2 < r1)%Z)
  /\ (PrimFloat.ltb 0 (Effects.redshift e) = true <-> (r1 < r2)%Z).
Proof.
  intros Hm H1 H2 D1 D2. cbv zeta.
  pose proof (deeperChecked_sliders m r1 r2 Hm H1 H2) as Hc.
  unfold deeperChecked in Hc. rewrite D1, D2 in Hc. cbn [andb implb] in Hc.
  apply andb_true_iff in Hc. destruct Hc as [Hc Hz].
  apply andb_true_iff in Hc. destruct Hc as [Hn Hr].
  apply Bool.eqb_prop in Hr. apply Bool.eqb_prop in Hz.
  split; [exact Hn |]. split.
  - change (Effects.relativeTimeDilation
              (calculateRelativisticEffects (sliders m r1 r2 a)))
      with (PrimFloat.div
              (timeDilationOf (PrimFloat.div (float_of_Z m) (float_of_Z r2))
                              SCALE_FACTOR)
              (timeDilationOf (PrimFloat.div (float_of_Z m) (float_of_Z r1))
                              SCALE_FACTOR)).
    rewrite Hr. apply Z.ltb_lt.
  - change (Effects.redshift
              (calculateRelativisticEffects (sliders m r1 r2 a)))
      with (redshiftOf (PrimFloat.div (float_of_Z m) (float_of_Z r1))
                       (PrimFloat.div (float_of_Z m) (float_of_Z r2))
                       SCALE_FACTOR).
    rewrite Hz. apply Z.ltb_lt.
Qed.

Lemma deeper_observer_is_slower_on_binary64_witness :
  (1 <= 10 <= 50)%Z /\ (10 <= 30 <= 50)%Z /\ (5 <= 20 <= 45)%Z
  /\ sliderInDomain 10 30 = true /\ sliderInDomain 10 20 = true
  /\ forall h : HostMath,
       PrimFloat.ltb 1
         (Effects.relativeTimeDilation
            (calculateRelativisticEffects initialControls)) = true.
Proof.
  split; [lia | split; [lia | split; [lia |]]].
  split; [reflexivity | split; [reflexivity |]].
  intros h.
  destruct (deeper_observer_is_slower_on_binary64 h 10 30 20 120
              ltac:(lia) ltac:(lia) ltac:(lia) eq_refl eq_refl)
    as (_ & Hrel & _).
  apply Hrel. lia.
Defined.

(** *** The Kerr radii on the sliders *)

(** X4: on binary64, for every mass 1, ..., 50 and rotation 0, 0.1, ..., 1
    of the sliders, the Kerr radii satisfy
    [0 <= rMinus <= mass <= rPlus <= 2 * mass] and
    [rPlus + rMinus = 2 * mass], and the horizon radius never exceeds the
    ergosphere radius: it is below it when the rotation is not zero and
    equal to it at rotation zero. *)
Theorem kerr_radii_on_the_sliders (h : HostMath) (m k : Z) :
  (1 <= m <= 50)%Z -> (0 <= k <= 10)%Z ->
  let mass := float_of_Z m in
  let K := kerrHorizon mass (rotationStep k) in
  PrimFloat.leb 0 (Kerr.rMinus K) = true
  /\ PrimFloat.leb (Kerr.rMinus K) mass = true
  /\ PrimFloat.leb mass (Kerr.rPlus K) = true
  /\ PrimFloat.leb (Kerr.rPlus K) (PrimFloat.mul 2 mass) = true
  /\ PrimFloat.eqb (PrimFloat.add (Kerr.rPlus K) (Kerr.rMinus K))
                   (PrimFloat.mul 2 mass) = true
  /\ PrimFloat.leb (Kerr.horizonRadius K) (Kerr.ergoRadius K) = true
  /\ (PrimFloat.ltb (Kerr.horizonRadius K) (Kerr.ergoRadius K) = true
      <-> (0 < k)%Z).
Proof.
  intros Hm Hk. cbv zeta.
  pose proof (kerrChecked_sliders m k Hm Hk) as Hc.
  unfold kerrChecked in Hc.
  repeat (apply andb_true_iff in Hc; destruct Hc as [Hc ?]).
  repeat split; try assumption.
  - intros Hlt.
    match goal with H : Bool.eqb _ _ = true |- _ => apply Bool.eqb_prop in H;
      rewrite H in Hlt end.
    apply Z.ltb_lt. exact Hlt.
  - intros Hpos.
    match goal with H : Bool.eqb _ _ = true |- _ => apply Bool.eqb_prop in H;
      rewrite H end.
    apply Z.ltb_lt. exact Hpos.
Qed.

Lemma kerr_radii_on_the_sliders_witness :
  (1 <= 10 <= 50)%Z /\ (0 <= 5 <= 10)%Z
  /\ forall h : HostMath,
       PrimFloat.ltb
         (Kerr.horizonRadius (kerrHorizon (float_of_Z 10) (rotationStep 5)))
         (Kerr.ergoRadius (kerrHorizon (float_of_Z 10) (rotationStep 5)))
       = true.
Proof.
  split; [lia | split; [lia |]].
  intros h.
  destruct (kerr_radii_on_the_sliders h 10 5 ltac:(lia) ltac:(lia))
    as (_ & _ & _ & _ & _ & _ & Hlt).
  apply Hlt. lia.
Defined.

End F64Rounding.

(** ** The start of the rays *)

Module RayStartLaws.
Import F64 Cases64 Rounding64 RayStart64.

Lemma starts_table : forallb startsChecked (Zrange 10 50) = true.
Proof. vm_compute. reflexivity. Qed.

Lemma start_checked (r : Z) (c s : float) (i : nat) :
  (10 <= r <= 50)%Z -> (i < 8)%nat ->
  In c (oneUlp (fst (nth i trigTable (1, 0)%float))) ->
  In s (oneUlp (snd (nth i trigTable (1, 0)%float))) ->
  nearOne (PrimFloat.div (startRadius (float_of_Z r) c s) (float_of_Z r))
  = true.
Proof.
  intros Hr Hi Hc Hs.
  pose proof starts_table as Hall.
  pose proof (proj1 (forallb_forall _ _) Hall r (F64Laws.Zrange_In _ _ _ Hr))
    as Hcs.
  unfold startsChecked in Hcs.
  pose proof (proj1 (forallb_forall _ _) Hcs _
                (@nth_In _ i trigTable (1, 0)%float Hi)) as Hcos.
  pose proof (proj1 (forallb_forall _ _) Hcos c Hc) as Hsin.
  exact (proj1 (forallb_forall _ _) Hsin s Hs).
Qed.

Opaque traceSteps.

(** X20: on binary64, on an engine whose cosine and sine are accurate to
    one unit in the last place at the eight ray angles, for every value of
    the slider "Observer 1 Distance" and every mass and rotation: each of
    the eight rays starts at the observer's radius to within [2^-50]
    (relatively), at the height [- mass / r] of its own radius [r]. *)
Theorem rays_start_near_the_observer_radius (h : HostMath)
  (m r1 r2 a : Z) (mass rotation : float)
  (path : list (GridPoint.t float)) :
  accurateTrig h ->
  (10 <= r1 <= 50)%Z ->
  In path (calculateLightPaths (sliders m r1 r2 a) mass rotation 8) ->
  exists (start : GridPoint.t float) (samples : list (GridPoint.t float)),
    path = start :: samples
    /\ nearOne (PrimFloat.div (sampleRadius start) (float_of_Z r1)) = true
    /\ GridPoint.z start
       = PrimFloat.div (PrimFloat.opp mass) (sampleRadius start).
Proof.
  intros Hacc Hr Hpath.
  unfold calculateLightPaths in Hpath.
  apply in_map_iff in Hpath. destruct Hpath as [i [Hpath Hi]].
  apply in_seq in Hi. assert (Hi8 : (i < 8)%nat) by lia.
  rewrite lightPath_rayFrom in Hpath. subst path.
  destruct (Hacc i Hi8) as [Hc Hs].
  unfold rayFrom. eexists. eexists. split; [reflexivity |].
  split; [| reflexivity].
  exact (start_checked r1 _ _ i Hr Hi8 Hc Hs).
Qed.

Lemma rays_start_near_the_observer_radius_witness :
  accurateTrig tableHost
  /\ (10 <= 30 <= 50)%Z
  /\ forall path : list (GridPoint.t float),
       In path (@calculateLightPaths float (@float_Number tableHost)
                  initialControls 10%float 0%float 8) ->
       exists (start : GridPoint.t float) (samples : list (GridPoint.t float)),
         path = start :: samples
         /\ nearOne
              (PrimFloat.div
                 (@sampleRadius float (@float_Number tableHost) start)
                 (float_of_Z 30)) = true.
Proof.
  split; [exact F64Laws.tableHost_accurate |].
  split; [lia |].
  intros path Hpath.
  destruct (rays_start_near_the_observer_radius tableHost 10 30 20 120
              10%float 0%float path F64Laws.tableHost_accurate
              ltac:(lia) Hpath) as (start & samples & Hp & Hn & _).
  exists start, samples. split; assumption.
Defined.

Transparent traceSteps.

End RayStartLaws.
